(** * Shree voice assistant ([src/assistant.py]): a shallow embedding

    The development follows the layout of the source file: text primitives of
    Python's [str], the [json] module as far as the persistence helpers use
    it, the persistence helpers, the speaker and the listener, the command
    router with its handlers, and the main loop.

    Text.  A [string] stands for a Python [str] whose code points all lie in
    U+0000..U+00FF; each [ascii] is one code point.  On that range
    [str.lower], [str.isspace], slicing, [str.replace] and [str.join] are
    given exactly.

    Effects.  Calls that leave the process (the clock, the browser, the chat
    and knowledge services, the speech engines, the disk) are answered by an
    [env] record, one per cycle of the main loop; what the program does to
    the outside is appended to the [trace] of the [world].  Exceptions are values of
    [exn]; they stand for subclasses of Python's [Exception] only, which is
    what every handler of the source catches. *)

From Stdlib Require Import String Ascii List ZArith Lia Bool Arith.
From Stdlib Require Import DecimalString DecimalFacts DecimalPos DecimalN.
Import ListNotations.
Local Set Warnings "-register-all".
Local Open Scope list_scope.
Local Open Scope nat_scope.
Local Open Scope string_scope.

(** ** Text primitives *)

Definition code (c : ascii) : nat := nat_of_ascii c.

Definition in_range (lo hi : nat) (c : ascii) : bool :=
  (lo <=? code c)%nat && (code c <=? hi)%nat.

Definition is_code (n : nat) (c : ascii) : bool := (code c =? n)%nat.

Definition dquote : ascii := ascii_of_nat 34.
Definition bslash : ascii := ascii_of_nat 92.
Definition newline : ascii := ascii_of_nat 10.

(** [str.isspace] on one code point: the ASCII blanks and separators,
    NEXT LINE (U+0085) and NO-BREAK SPACE (U+00A0). *)
Definition isspace (c : ascii) : bool :=
  in_range 9 13 c || in_range 28 32 c || is_code 133 c || is_code 160 c.

(** [str.lower] on one code point: A-Z and the capital letters of the
    Latin-1 supplement (U+00C0..U+00DE without the multiplication sign). *)
Definition lower_char (c : ascii) : ascii :=
  if in_range 65 90 c || (in_range 192 222 c && negb (is_code 215 c))
  then ascii_of_nat (code c + 32)
  else c.

Fixpoint lower (s : string) : string :=
  match s with
  | EmptyString => EmptyString
  | String c r => String (lower_char c) (lower r)
  end.

Fixpoint lstrip (s : string) : string :=
  match s with
  | EmptyString => EmptyString
  | String c r => if isspace c then lstrip r else s
  end.

Fixpoint rstrip (s : string) : string :=
  match s with
  | EmptyString => EmptyString
  | String c r =>
      match rstrip r with
      | EmptyString => if isspace c then EmptyString else String c EmptyString
      | r' => String c r'
      end
  end.

(** [s.strip()] *)
Definition strip (s : string) : string := rstrip (lstrip s).

(** [s.startswith(p)] *)
Definition startswith (s p : string) : bool := prefix p s.

(** [s[n:]] *)
Fixpoint slice_from (n : nat) (s : string) : string :=
  match n, s with
  | O, _ => s
  | S _, EmptyString => EmptyString
  | S n', String _ r => slice_from n' r
  end.

(** [s.replace(a, b)] for single characters [a] and [b] *)
Fixpoint replace_char (a b : ascii) (s : string) : string :=
  match s with
  | EmptyString => EmptyString
  | String c r => String (if Ascii.eqb c a then b else c) (replace_char a b r)
  end.

(** [sep.join(parts)] *)
Definition join (sep : string) (parts : list string) : string :=
  String.concat sep parts.

(** [x in (a, b, ...)] for strings *)
Definition str_in (x : string) (l : list string) : bool :=
  existsb (String.eqb x) l.

(** [str(n)] for a non-negative integer *)
Definition str_of_N (n : N) : string := NilEmpty.string_of_uint (N.to_uint n).

Definition str_of_nat (n : nat) : string := str_of_N (N.of_nat n).

(** [str(z)] for an integer *)
Definition str_of_Z (z : Z) : string :=
  if (z <? 0)%Z then String "-" (str_of_N (Z.abs_N z)) else str_of_N (Z.to_N z).

Definition hex_digit (n : nat) : ascii :=
  if (n <? 10)%nat then ascii_of_nat (48 + n) else ascii_of_nat (87 + n).

(** The two lower-case hexadecimal digits of a code point. *)
Definition hex2 (c : ascii) : string :=
  String (hex_digit (code c / 16)) (String (hex_digit (code c mod 16)) EmptyString).

Fixpoint chars (s : string) : list ascii :=
  match s with
  | EmptyString => []
  | String c r => c :: chars r
  end.

(** ** Values

    What [json.loads] can return and [json.dumps] can take: [None], [bool],
    [int], [str], [list] and [dict] with string keys.  A [dict] is its list
    of items in insertion order.  Numbers with a fraction or an exponent are
    Python floats and are not represented (see [scan_number]). *)

Inductive json : Type :=
| JNull
| JBool (b : bool)
| JInt (n : Z)
| JStr (s : string)
| JArr (items : list json)
| JObj (fields : list (string * json)).

(** [d[k]] on the items of a dict *)
Fixpoint dict_get (k : string) (d : list (string * json)) : option json :=
  match d with
  | [] => None
  | (k', v) :: d' => if String.eqb k' k then Some v else dict_get k d'
  end.

(** [d[k] = v]: an existing key keeps its place, a new key goes last. *)
Fixpoint dict_set (k : string) (v : json) (d : list (string * json))
  : list (string * json) :=
  match d with
  | [] => [(k, v)]
  | (k', v') :: d' =>
      if String.eqb k' k then (k', v) :: d' else (k', v') :: dict_set k v d'
  end.

(** [bool(v)] *)
Definition truthy (v : json) : bool :=
  match v with
  | JNull => false
  | JBool b => b
  | JInt n => negb (n =? 0)%Z
  | JStr s => negb (String.eqb s EmptyString)
  | JArr l => match l with [] => false | _ => true end
  | JObj d => match d with [] => false | _ => true end
  end.

(** *** [repr] and [str] of a value, as an f-string renders it *)

Definition printable (c : ascii) : bool :=
  in_range 32 126 c || (in_range 161 255 c && negb (is_code 173 c)).

Definition repr_char (q : ascii) (c : ascii) : string :=
  if Ascii.eqb c q || Ascii.eqb c bslash then String bslash (String c EmptyString)
  else if is_code 9 c then String bslash "t"
  else if is_code 10 c then String bslash "n"
  else if is_code 13 c then String bslash "r"
  else if printable c then String c EmptyString
  else String bslash (String "x" (hex2 c)).

Fixpoint concat_map (f : ascii -> string) (s : string) : string :=
  match s with
  | EmptyString => EmptyString
  | String c r => f c ++ concat_map f r
  end.

Definition has_char (c : ascii) (s : string) : bool :=
  existsb (Ascii.eqb c) (chars s).

(** [repr(s)]: single quotes, unless [s] holds a single quote and no double
    quote. *)
Definition repr_str (s : string) : string :=
  let q := if has_char "'" s && negb (has_char dquote s) then dquote else "'"%char in
  String q (concat_map (repr_char q) s ++ String q EmptyString).

Fixpoint py_repr (v : json) : string :=
  match v with
  | JNull => "None"
  | JBool true => "True"
  | JBool false => "False"
  | JInt n => str_of_Z n
  | JStr s => repr_str s
  | JArr l => "[" ++ join ", " (map py_repr l) ++ "]"
  | JObj d =>
      "{" ++ join ", " (map (fun kv => (repr_str (fst kv) ++ ": " ++ py_repr (snd kv))%string) d)
          ++ "}"
  end.

(** [str(v)], which is [format(v, "")] for these types *)
Definition py_str (v : json) : string :=
  match v with
  | JStr s => s
  | _ => py_repr v
  end.

(** ** The [json] module

    [json.dumps(v, indent=2)] and [json.loads(s)], after the standard
    library's encoder and decoder (defaults otherwise: [ensure_ascii], strict
    strings). *)

(** One character of a string, as [ensure_ascii] writes it. *)
Definition escape_char (c : ascii) : string :=
  if Ascii.eqb c dquote then String bslash (String dquote EmptyString)
  else if Ascii.eqb c bslash then String bslash (String bslash EmptyString)
  else if is_code 10 c then String bslash "n"
  else if is_code 13 c then String bslash "r"
  else if is_code 9 c then String bslash "t"
  else if is_code 8 c then String bslash "b"
  else if is_code 12 c then String bslash "f"
  else if in_range 32 126 c then String c EmptyString
  else String bslash ("u00" ++ hex2 c).

Definition encode_str (s : string) : string :=
  String dquote (concat_map escape_char s ++ String dquote EmptyString).

Fixpoint spaces (n : nat) : string :=
  match n with
  | O => EmptyString
  | S n' => String " " (spaces n')
  end.

(** A line break followed by the indentation of nesting level [lvl]. *)
Definition newline_indent (lvl : nat) : string :=
  String newline (spaces (2 * lvl)).

Fixpoint dumps_at (lvl : nat) (v : json) : string :=
  match v with
  | JNull => "null"
  | JBool true => "true"
  | JBool false => "false"
  | JInt n => str_of_Z n
  | JStr s => encode_str s
  | JArr [] => "[]"
  | JArr l =>
      "[" ++ newline_indent (S lvl)
          ++ join ("," ++ newline_indent (S lvl)) (map (dumps_at (S lvl)) l)
          ++ newline_indent lvl ++ "]"
  | JObj [] => "{}"
  | JObj d =>
      "{" ++ newline_indent (S lvl)
          ++ join ("," ++ newline_indent (S lvl))
               (map (fun kv => (encode_str (fst kv) ++ ": " ++ dumps_at (S lvl) (snd kv))%string) d)
          ++ newline_indent lvl ++ "}"
  end.

(** [json.dumps(v, indent=2)] *)
Definition json_dumps (v : json) : string := dumps_at 0 v.

(** The decoder's whitespace: space, tab, line feed, carriage return. *)
Definition json_ws (c : ascii) : bool :=
  is_code 32 c || is_code 9 c || is_code 10 c || is_code 13 c.

Fixpoint skip_ws (s : string) : string :=
  match s with
  | EmptyString => EmptyString
  | String c r => if json_ws c then skip_ws r else s
  end.

Definition is_digit (c : ascii) : bool := in_range 48 57 c.

Definition hex_val (c : ascii) : option nat :=
  if is_digit c then Some (code c - 48)
  else if in_range 97 102 c then Some (code c - 87)
  else if in_range 65 70 c then Some (code c - 55)
  else None.

Definition hex4 (a b c d : ascii) : option nat :=
  match hex_val a, hex_val b, hex_val c, hex_val d with
  | Some x, Some y, Some z, Some w => Some (((x * 16 + y) * 16 + z) * 16 + w)
  | _, _, _, _ => None
  end.

(** The character a backslash escape other than [u] stands for. *)
Definition unescape (e : ascii) : option ascii :=
  if Ascii.eqb e dquote then Some dquote
  else if Ascii.eqb e bslash then Some bslash
  else if Ascii.eqb e "/" then Some "/"%char
  else if Ascii.eqb e "b" then Some (ascii_of_nat 8)
  else if Ascii.eqb e "f" then Some (ascii_of_nat 12)
  else if Ascii.eqb e "n" then Some (ascii_of_nat 10)
  else if Ascii.eqb e "r" then Some (ascii_of_nat 13)
  else if Ascii.eqb e "t" then Some (ascii_of_nat 9)
  else None.

Definition consume (c : ascii) (r : option (string * string))
  : option (string * string) :=
  match r with
  | Some (t, rest) => Some (String c t, rest)
  | None => None
  end.

(** The decoder's string scanner, started after the opening quote: the
    decoded text and what follows the closing quote.  A raw control character,
    an unknown escape or a missing closing quote is an error.  An escape
    [\uXXXX] above U+00FF denotes text outside the range of [string] and is
    reported as an error as well. *)
Fixpoint scan_string (s : string) : option (string * string) :=
  match s with
  | EmptyString => None
  | String c r =>
      if Ascii.eqb c dquote then Some (EmptyString, r)
      else if Ascii.eqb c bslash then
        match r with
        | EmptyString => None
        | String e r1 =>
            if Ascii.eqb e "u" then
              match r1 with
              | String h1 (String h2 (String h3 (String h4 r2))) =>
                  match hex4 h1 h2 h3 h4 with
                  | Some n =>
                      if (n <=? 255)%nat then consume (ascii_of_nat n) (scan_string r2)
                      else None
                  | None => None
                  end
              | _ => None
              end
            else
              match unescape e with
              | Some ch => consume ch (scan_string r1)
              | None => None
              end
        end
      else if (code c <? 32)%nat then None
      else consume c (scan_string r)
  end.

(** The longest run of decimal digits at the front of a text, and the rest. *)
Fixpoint span_digits (s : string) : string * string :=
  match s with
  | EmptyString => (EmptyString, EmptyString)
  | String c r =>
      if is_digit c
      then let (ds, rest) := span_digits r in (String c ds, rest)
      else (EmptyString, s)
  end.

Definition N_of_digits (ds : string) : option N :=
  match NilEmpty.uint_of_string ds with
  | Some u => Some (N.of_uint u)
  | None => None
  end.

(** Whether a fraction or an exponent follows an integer part. *)
Definition float_tail (s : string) : bool :=
  match s with
  | String "." (String d _) => is_digit d
  | String e (String d r) =>
      (Ascii.eqb e "e" || Ascii.eqb e "E")
      && (is_digit d
          || ((Ascii.eqb d "+" || Ascii.eqb d "-")
              && match r with String d' _ => is_digit d' | EmptyString => false end))
  | _ => false
  end.

(** The integer part of a number: a single zero, or a non-zero digit and
    any digits after it. *)
Definition scan_natural (s : string) : option (N * string) :=
  match s with
  | EmptyString => None
  | String c r =>
      if Ascii.eqb c "0" then Some (0%N, r)
      else
        match span_digits s with
        | (EmptyString, _) => None
        | (ds, rest) =>
            match N_of_digits ds with
            | Some n => Some (n, rest)
            | None => None
            end
        end
  end.

(** The decoder's number: an optional minus sign and an integer part make a
    Python [int].  When a
    fraction or an exponent follows, the number is a [float], which [json]
    does not represent: such documents are outside the model and are
    reported as errors, like the constants [NaN] and [Infinity]. *)
Definition scan_number (s : string) : option (json * string) :=
  let (neg, body) :=
    match s with
    | String c r => if Ascii.eqb c "-" then (true, r) else (false, s)
    | EmptyString => (false, s)
    end in
  match scan_natural body with
  | Some (n, rest) =>
      if float_tail rest then None
      else Some (JInt (if neg then (- Z.of_N n)%Z else Z.of_N n), rest)
  | None => None
  end.

(** [dict(pairs)]: a repeated key keeps its first place and its last value. *)
Definition dict_of_pairs (pairs : list (string * json)) : list (string * json) :=
  fold_left (fun d kv => dict_set (fst kv) (snd kv) d) pairs [].

(** The decoder proper.  [parse_value] reads one value at the front of the
    text; [parse_items] the elements of an array after its bracket, and
    [parse_members] the members of an object after the opening quote of a key,
    both up to and including the closing bracket.  [fuel] bounds the chain of
    calls, of which two in a row consume a character at least; [json_parse]
    starts with twice the length of the text. *)
Fixpoint parse_value (fuel : nat) (s : string) : option (json * string) :=
  match fuel with
  | O => None
  | S fuel' =>
      match s with
      | EmptyString => None
      | String c r =>
          if Ascii.eqb c dquote then
            match scan_string r with
            | Some (t, rest) => Some (JStr t, rest)
            | None => None
            end
          else if Ascii.eqb c "{" then
            match skip_ws r with
            | String q r1 =>
                if Ascii.eqb q "}" then Some (JObj [], r1)
                else if Ascii.eqb q dquote then
                  match parse_members fuel' r1 with
                  | Some (pairs, rest) => Some (JObj (dict_of_pairs pairs), rest)
                  | None => None
                  end
                else None
            | EmptyString => None
            end
          else if Ascii.eqb c "[" then
            match skip_ws r with
            | String q r1 =>
                if Ascii.eqb q "]" then Some (JArr [], r1)
                else
                  match parse_items fuel' (String q r1) with
                  | Some (l, rest) => Some (JArr l, rest)
                  | None => None
                  end
            | EmptyString => None
            end
          else if startswith s "null" then Some (JNull, slice_from 4 s)
          else if startswith s "true" then Some (JBool true, slice_from 4 s)
          else if startswith s "false" then Some (JBool false, slice_from 5 s)
          else scan_number s
      end
  end

with parse_items (fuel : nat) (s : string) : option (list json * string) :=
  match fuel with
  | O => None
  | S fuel' =>
      match parse_value fuel' s with
      | Some (v, r) =>
          match skip_ws r with
          | String q r1 =>
              if Ascii.eqb q "]" then Some ([v], r1)
              else if Ascii.eqb q "," then
                match parse_items fuel' (skip_ws r1) with
                | Some (l, rest) => Some (v :: l, rest)
                | None => None
                end
              else None
          | EmptyString => None
          end
      | None => None
      end
  end

with parse_members (fuel : nat) (s : string)
  : option (list (string * json) * string) :=
  match fuel with
  | O => None
  | S fuel' =>
      match scan_string s with
      | Some (k, r) =>
          match skip_ws r with
          | String ":" r1 =>
              match parse_value fuel' (skip_ws r1) with
              | Some (v, r2) =>
                  match skip_ws r2 with
                  | String q r3 =>
                      if Ascii.eqb q "}" then Some ([(k, v)], r3)
                      else if Ascii.eqb q "," then
                        match skip_ws r3 with
                        | String q' r4 =>
                            if Ascii.eqb q' dquote then
                              match parse_members fuel' r4 with
                              | Some (l, rest) => Some ((k, v) :: l, rest)
                              | None => None
                              end
                            else None
                        | EmptyString => None
                        end
                      else None
                  | EmptyString => None
                  end
              | None => None
              end
          | _ => None
          end
      | None => None
      end
  end.

(** [json.loads(s)]: one value between optional whitespace, and nothing
    after it; [None] stands for [JSONDecodeError]. *)
Definition json_parse (s : string) : option json :=
  match parse_value (2 * String.length s + 2) (skip_ws s) with
  | Some (v, rest) =>
      match skip_ws rest with
      | EmptyString => Some v
      | _ => None
      end
  | None => None
  end.

(** ** Exceptions, the outside world and the effect monad *)

(** An exception: its class and [str(e)]. *)
Record exn : Type := Exn { exn_class : string; exn_msg : string }.

Inductive result (A : Type) : Type :=
| Ok (a : A)
| Raise (e : exn).

Arguments Ok {A} a.
Arguments Raise {A} e.

(** A path on disk: no file; a path whose status cannot even be queried
    ([path.exists()] re-raises errors other than a missing file); a file that
    cannot be read as UTF-8 text (the exception says why); a file and its
    text. *)
Inductive file_state : Type :=
| Absent
| Inaccessible (e : exn)
| Unreadable (e : exn)
| Holds (text : string).

Inductive role : Type := System | User | Assistant.

(** ConversationTurn: one message of the chat history. *)
Record turn : Type := Turn { turn_role : role; turn_content : string }.

(** What the program does to the outside, in order.  [Listen] is the entry
    into [Listener.listen], where the microphone is acquired.  [Route] is not
    an effect: it marks the point where [run] hands an utterance to
    [handle_command]. *)
Inductive event : Type :=
| Print (line : string)
| EngineSay (text : string) (wait : bool)
| BrowserOpen (url : string)
| WriteText (path text : string)
| ChatCompletion (model : string) (messages : list turn) (max_tokens : nat)
| WikiSummary (prompt : string) (sentences : nat)
| Listen (timeout phrase_time_limit : nat)
| Route (text : string).

(** What is fixed when the module is imported and the assistant is built. *)
Record config : Type := Config {
  tts_enabled : bool;            (* Speaker.enabled, with an engine *)
  has_listener : bool;           (* self.listener is not None *)
  openai_module : bool;          (* import openai succeeded *)
  openai_key : option string;    (* os.environ.get("OPENAI_API_KEY") *)
  wikipedia_module : bool;       (* import wikipedia succeeded *)
  TODO_FILE : string             (* str(DATA_DIR / "todo.json") *)
}.

Record world : Type := World {
  conf : config;
  fs : string -> file_state;     (* the disk, by path *)
  todo_list : json;              (* the module's global *)
  chat_history : list turn;      (* self.chat_history *)
  running : bool;                (* self.running *)
  trace : list event
}.

Definition set_fs (f : string -> file_state) (w : world) : world :=
  World (conf w) f (todo_list w) (chat_history w) (running w) (trace w).

Definition set_todo_list (v : json) (w : world) : world :=
  World (conf w) (fs w) v (chat_history w) (running w) (trace w).

Definition set_chat_history (h : list turn) (w : world) : world :=
  World (conf w) (fs w) (todo_list w) h (running w) (trace w).

Definition set_running (b : bool) (w : world) : world :=
  World (conf w) (fs w) (todo_list w) (chat_history w) b (trace w).

Definition set_trace (t : list event) (w : world) : world :=
  World (conf w) (fs w) (todo_list w) (chat_history w) (running w) t.

Definition fs_update (path : string) (f : file_state) (d : string -> file_state)
  : string -> file_state :=
  fun p => if String.eqb p path then f else d p.

(** How a [write_text] ends: the file holds the text, or the call raises and
    leaves the path in some state. *)
Inductive write_outcome : Type :=
| Written
| WriteFailed (e : exn) (remains : file_state).

(** How [wikipedia.summary] ends. *)
Inductive wiki_answer : Type :=
| Summary (text : string)
| DisambiguationError (options : list string)
| PageError
| WikiFailed (e : exn).

(** How one [Listener.listen] ends: a transcript, silence until the timeout,
    speech the recogniser cannot make out, a failed request to the
    recognition service, or any other exception of the audio stack. *)
Inductive hearing : Type :=
| Heard (text : string)
| WaitTimeoutError
| UnknownValueError
| RequestError (e : exn)
| ListenFailed (e : exn).

(** The answers of the outside during one cycle of the assistant. *)
Record env : Type := Env {
  now_isoformat : string;                         (* datetime.now().isoformat() *)
  disk_write : string -> string -> write_outcome; (* path.write_text(text) *)
  browser : string -> result bool;                (* webbrowser.open(url) *)
  chat : list turn -> result string;              (* resp['choices'][0]['message']['content'] *)
  wiki : string -> wiki_answer;                   (* wikipedia.summary(prompt, sentences=2) *)
  engine : string -> option exn;                  (* engine.say(text) and runAndWait() *)
  hear : hearing                                  (* the microphone and the recogniser *)
}.

(** A computation: from a world to a value or an exception, and the world it
    leaves.  What was done before an exception stays done. *)
Definition M (A : Type) : Type := world -> result A * world.

Definition ret {A} (a : A) : M A := fun w => (Ok a, w).

Definition raise {A} (e : exn) : M A := fun w => (Raise e, w).

Definition bind {A B} (m : M A) (k : A -> M B) : M B :=
  fun w =>
    match m w with
    | (Ok a, w') => k a w'
    | (Raise e, w') => (Raise e, w')
    end.

(** [try: m except Exception as e: handler(e)] *)
Definition try_except {A} (m : M A) (handler : exn -> M A) : M A :=
  fun w =>
    match m w with
    | (Ok a, w') => (Ok a, w')
    | (Raise e, w') => handler e w'
    end.

Definition lift {A} (r : result A) : M A := fun w => (r, w).

Definition gets {A} (f : world -> A) : M A := fun w => (Ok (f w), w).

Definition modify (f : world -> world) : M unit := fun w => (Ok tt, f w).

Definition emit (e : event) : M unit :=
  modify (fun w => set_trace (trace w ++ [e])%list w).

Declare Scope monad_scope.
Delimit Scope monad_scope with monad.
Notation "x <- m ;; k" := (bind m (fun x => k))
  (at level 61, m at next level, right associativity) : monad_scope.
Notation "m ;; k" := (bind m (fun _ => k))
  (at level 61, right associativity) : monad_scope.
Local Open Scope monad_scope.

Definition value_of {A} (r : result A * world) : result A := fst r.
Definition world_of {A} (r : result A * world) : world := snd r.

(** [print(line)] *)
Definition print (line : string) : M unit := emit (Print line).

(** ** Data persistence *)

Definition FileNotFoundError : exn := Exn "FileNotFoundError" "No such file or directory".
Definition JSONDecodeError : exn := Exn "JSONDecodeError" "Expecting value".

(** [path.exists()] *)
Definition path_exists (path : string) : M bool :=
  f <- gets (fun w => fs w path) ;;
  match f with
  | Absent => ret false
  | Inaccessible e => raise e
  | _ => ret true
  end.

(** [path.read_text(encoding="utf-8")] *)
Definition read_text (path : string) : M string :=
  f <- gets (fun w => fs w path) ;;
  match f with
  | Holds text => ret text
  | Unreadable e => raise e
  | Inaccessible e => raise e
  | Absent => raise FileNotFoundError
  end.

(** [path.write_text(text, encoding="utf-8")] *)
Definition write_text (E : env) (path text : string) : M unit :=
  emit (WriteText path text) ;;
  match disk_write E path text with
  | Written => modify (fun w => set_fs (fs_update path (Holds text) (fs w)) w)
  | WriteFailed e remains =>
      modify (fun w => set_fs (fs_update path remains (fs w)) w) ;;
      raise e
  end.

(** [json.loads(s)] *)
Definition json_loads (s : string) : M json :=
  match json_parse s with
  | Some v => ret v
  | None => raise JSONDecodeError
  end.

Definition load_json (path : string) (default : json) : M json :=
  present <- path_exists path ;;
  if present then
    try_except
      (text <- read_text path ;; json_loads text)
      (fun _ => ret default)
  else ret default.

Definition save_json (E : env) (path : string) (data : json) : M unit :=
  try_except
    (write_text E path (json_dumps data))
    (fun e => print ("Error saving " ++ path ++ ": " ++ exn_msg e)).

(** The module-level statement [todo_list = load_json(TODO_FILE, [])].  The
    directory of the file is taken to exist, as [DATA_DIR.mkdir] leaves it. *)
Definition import_module : M unit :=
  path <- gets (fun w => TODO_FILE (conf w)) ;;
  v <- load_json path (JArr []) ;;
  modify (set_todo_list v).

(** ** Speaker *)

Definition say (E : env) (text : string) (wait : bool) : M unit :=
  print ("Shree: " ++ text) ;;
  enabled <- gets (fun w => tts_enabled (conf w)) ;;
  if enabled then
    try_except
      (emit (EngineSay text wait) ;;
       match engine E text with
       | None => ret tt
       | Some e => raise e
       end)
      (fun e => print ("TTS error: " ++ exn_msg e))
  else ret tt.

(** ** Listener *)

Definition listen (E : env) (timeout phrase_time_limit : nat) : M (option string) :=
  emit (Listen timeout phrase_time_limit) ;;
  print "(Listening...)" ;;
  match hear E with
  | WaitTimeoutError => ret None
  | Heard text => print ("User: " ++ text) ;; ret (Some text)
  | UnknownValueError => ret None
  | RequestError e => print ("Speech API error: " ++ exn_msg e) ;; ret None
  | ListenFailed e => raise e
  end.

(** ** Assistant *)

(** The shortcut table of [_open_website]. *)
Definition shortcuts : list (string * string) :=
  [ ("youtube", "https://www.youtube.com");
    ("google", "https://www.google.com");
    ("github", "https://github.com") ].

Definition SEARCH_PREFIX : string := "https://www.google.com/search?q=".

(** [table.get(key, default)] *)
Fixpoint get_or (key : string) (table : list (string * string)) (default : string)
  : string :=
  match table with
  | [] => default
  | (k, v) :: table' => if String.eqb k key then v else get_or key table' default
  end.

(** [webbrowser.open(url)] *)
Definition webbrowser_open (E : env) (url : string) : M bool :=
  emit (BrowserOpen url) ;;
  lift (browser E url).

Definition _open_website (E : env) (target : string) : M string :=
  let url :=
    get_or (lower target) shortcuts
      (SEARCH_PREFIX ++ replace_char " " "+" target) in
  webbrowser_open E url ;;
  ret ("Opening " ++ target).

Definition AttributeError : exn :=
  Exn "AttributeError" "object has no attribute 'append'".
Definition TypeError : exn := Exn "TypeError" "object is not subscriptable".
Definition KeyError : exn := Exn "KeyError" "'item'".

(** [todo_list.append(x)]: only a list has the method. *)
Definition todo_append (x : json) : M unit :=
  l <- gets todo_list ;;
  match l with
  | JArr items => modify (set_todo_list (JArr (items ++ [x])%list))
  | _ => raise AttributeError
  end.

(** TodoRecord: [{"item": item, "added_at": added_at}] *)
Definition todo_record (item added_at : string) : json :=
  JObj [("item", JStr item); ("added_at", JStr added_at)].

Definition _add_todo (E : env) (item : string) : M string :=
  todo_append (todo_record item (now_isoformat E)) ;;
  path <- gets (fun w => TODO_FILE (conf w)) ;;
  data <- gets todo_list ;;
  save_json E path data ;;
  ret ("Added to your todo list: " ++ item).

(** [v[k]] for a string [k] *)
Definition subscript (v : json) (k : string) : result json :=
  match v with
  | JObj d =>
      match dict_get k d with
      | Some x => Ok x
      | None => Raise KeyError
      end
  | _ => Raise TypeError
  end.

(** [iter(v)]: the elements of a list, the keys of a dict, the characters of
    a string; nothing else is iterable. *)
Definition py_iter (v : json) : result (list json) :=
  match v with
  | JArr l => Ok l
  | JObj d => Ok (map (fun kv => JStr (fst kv)) d)
  | JStr s => Ok (map (fun c => JStr (String c EmptyString)) (chars s))
  | _ => Raise TypeError
  end.

(** [enumerate(l)], counting from [i] *)
Fixpoint enumerate_from (i : nat) (l : list json) : list (nat * json) :=
  match l with
  | [] => []
  | x :: l' => (i, x) :: enumerate_from (S i) l'
  end.

(** The generator expression of [_list_todo], consumed from the left: the
    first element without an ['item'] ends it with that element's error. *)
Fixpoint todo_lines (l : list (nat * json)) : result (list string) :=
  match l with
  | [] => Ok []
  | (i, it) :: l' =>
      match subscript it "item" with
      | Ok x =>
          match todo_lines l' with
          | Ok lines => Ok ((str_of_nat (i + 1) ++ ". " ++ py_str x) :: lines)
          | Raise e => Raise e
          end
      | Raise e => Raise e
      end
  end.

Definition EMPTY_MESSAGE : string := "Your todo list is empty.".

(** The body of [_list_todo] on the value of [todo_list]. *)
Definition list_todo_text (todos : json) : result string :=
  if negb (truthy todos) then Ok EMPTY_MESSAGE
  else
    match py_iter todos with
    | Ok items =>
        match todo_lines (enumerate_from 0 items) with
        | Ok lines => Ok ("Here are your todos: " ++ join "; " lines)
        | Raise e => Raise e
        end
    | Raise e => Raise e
    end.

Definition _list_todo : M string :=
  todos <- gets todo_list ;;
  lift (list_todo_text todos).

(** The reply of last resort.  Its apostrophe is U+2019, outside the code
    points of [string]; the literal stands for the reply, whose characters
    nothing inspects. *)
Definition APOLOGY : string := "Sorry, I couldn’t find an answer.".

Definition SYSTEM_PROMPT : turn :=
  Turn System "You are a friendly helpful AI assistant.".

(** [bool(self.openai_key)]: set and not empty *)
Definition key_configured (c : config) : bool :=
  match openai_key c with
  | Some k => negb (String.eqb k EmptyString)
  | None => false
  end.

Definition history_append (t : turn) : M unit :=
  modify (fun w => set_chat_history (chat_history w ++ [t])%list w).

(** [openai.ChatCompletion.create(...)] and the content of its first choice *)
Definition chat_completion (E : env) (messages : list turn) : M string :=
  emit (ChatCompletion "gpt-4o-mini" messages 250) ;;
  lift (chat E messages).

(** [wikipedia.summary(prompt, sentences=2)] *)
Definition wikipedia_summary (E : env) (prompt : string) : M wiki_answer :=
  emit (WikiSummary prompt 2) ;;
  ret (wiki E prompt).

Definition _answer_with_ai (E : env) (prompt : string) : M string :=
  c <- gets conf ;;
  answered <-
    (if openai_module c && key_configured c then
       try_except
         (history_append (Turn User prompt) ;;
          history <- gets chat_history ;;
          content <- chat_completion E (SYSTEM_PROMPT :: history) ;;
          let reply := strip content in
          history_append (Turn Assistant reply) ;;
          ret (Some reply))
         (fun e => print ("OpenAI error: " ++ exn_msg e) ;; ret None)
     else ret None) ;;
  match answered with
  | Some reply => ret reply
  | None =>
      if wikipedia_module c then
        answer <- wikipedia_summary E prompt ;;
        match answer with
        | Summary text => ret text
        | DisambiguationError options =>
            ret ("Your query is ambiguous. Try one of these: "
                   ++ join ", " (firstn 5 options))
        | PageError => ret "I couldn't find anything on Wikipedia."
        | WikiFailed _ => ret APOLOGY
        end
      else ret APOLOGY
  end.

Definition GREETING_REPLY : string := "Hello! How are you today?".

Definition handle_command (E : env) (text : string) : M string :=
  let lower := strip (lower text) in
  if str_in lower ["hi"; "hello"; "hey"] then ret GREETING_REPLY
  else if startswith lower "open " then _open_website E (strip (slice_from 5 text))
  else if startswith lower "add todo " then _add_todo E (strip (slice_from 9 text))
  else if str_in lower ["list todo"; "show todo"; "todos"] then _list_todo
  else _answer_with_ai E text.

Definition WELCOME : string :=
  "Hello! I'm your assistant. You can just start talking to me.".
Definition UNAVAILABLE : string := "Speech recognition isn't available.".
Definition FAREWELL : string := "Goodbye! Have a great day!".
Definition EXIT_PHRASES : list string := ["exit"; "quit"; "stop"; "goodbye"].

(** How far [run] got: it returned, or it is about to call [listen] again
    and the script of the outside has no further cycle to offer. *)
Inductive status : Type :=
| Returned
| Listening.

(** The [while self.running] loop, one [env] per cycle. *)
Fixpoint main_loop (script : list env) : M status :=
  match script with
  | [] =>
      live <- gets running ;;
      if live then ret Listening else ret Returned
  | E :: rest =>
      live <- gets running ;;
      if live then
        heard <- listen E 6 10 ;;
        match heard with
        | None => main_loop rest
        | Some text =>
            if String.eqb text EmptyString then main_loop rest
            else if str_in (strip (lower text)) EXIT_PHRASES then
              say E FAREWELL true ;;
              modify (set_running false) ;;
              ret Returned
            else
              emit (Route text) ;;
              response <- handle_command E text ;;
              say E response true ;;
              main_loop rest
        end
      else ret Returned
  end.

(** [ShreeVoice.run]: [E0] answers the calls made before the loop. *)
Definition run (E0 : env) (script : list env) : M status :=
  say E0 WELCOME true ;;
  available <- gets (fun w => has_listener (conf w)) ;;
  if negb available then
    say E0 UNAVAILABLE true ;;
    ret Returned
  else main_loop script.

(** ** Reading a trace *)

(** The texts [run] handed to [handle_command], in order. *)
Fixpoint routed (t : list event) : list string :=
  match t with
  | [] => []
  | Route text :: t' => text :: routed t'
  | _ :: t' => routed t'
  end.


(** The lines printed, in order. *)
Fixpoint printed (t : list event) : list string :=
  match t with
  | [] => []
  | Print line :: t' => line :: printed t'
  | _ :: t' => printed t'
  end.

(** How often a line was printed. *)
Definition count_line (line : string) (t : list event) : nat :=
  List.length (filter (String.eqb line) (printed t)).

(** What one call of [say] adds to the trace. *)
Definition say_trace (c : config) (E : env) (text : string) (wait : bool)
  : list event :=
  Print ("Shree: " ++ text)
    :: (if tts_enabled c then
          EngineSay text wait
            :: match engine E text with
               | None => []
               | Some e => [Print ("TTS error: " ++ exn_msg e)]
               end
        else []).

(** ** The claims in the words of the specification *)

(** "A 1-indexed, semicolon-joined listing of all items in insertion order":
    the items numbered from [k] on. *)
Fixpoint numbered_listing (k : nat) (items : list string) : string :=
  match items with
  | [] => EmptyString
  | [x] => str_of_nat k ++ ". " ++ x
  | x :: rest => str_of_nat k ++ ". " ++ x ++ "; " ++ numbered_listing (S k) rest
  end.


(** A todo sequence: a list whose elements are TodoRecords. *)
Definition todo_sequence (records : list (string * string)) : json :=
  JArr (map (fun r => todo_record (fst r) (snd r)) records).

(** A record containing the key ['item']. *)
Definition has_item (v : json) : Prop :=
  exists d x, v = JObj d /\ dict_get "item" d = Some x.

(** A bound on the calls the decoder makes to read a value back. *)
Fixpoint weight (v : json) : nat :=
  match v with
  | JArr l => S (list_sum (map (fun x => S (weight x)) l))
  | JObj d => S (list_sum (map (fun kv => S (weight (snd kv))) d))
  | _ => 1
  end.

(** A text that ends a number: the end of the document, a comma or a line
    break. *)
Definition closed (s : string) : bool :=
  match s with
  | EmptyString => true
  | String c _ => Ascii.eqb c "," || Ascii.eqb c newline
  end.

(** A text whose first character is neither whitespace nor a closing
    bracket of an array. *)
Definition opens (s : string) : bool :=
  match s with
  | EmptyString => false
  | String c _ => negb (json_ws c) && negb (Ascii.eqb c "]")
  end.

(** One member of a dict as [dumps_at] writes it: the key, a colon and a
    space, the value. *)
Definition member_text (lvl : nat) (kv : string * json) : string :=
  encode_str (fst kv) ++ ": " ++ dumps_at lvl (snd kv).

(** Reading back what was written: the decoder, given enough fuel, finds
    the value at the front of its text and leaves what follows it. *)
Definition reads_back (v : json) : Prop :=
  forall lvl rest fuel,
    (weight v <= fuel)%nat -> closed rest = true ->
    parse_value fuel (dumps_at lvl v ++ rest) = Some (v, rest).

(** A value [json.dumps] and [json.loads] carry back and forth: no two items
    of a dict share a key, which holds of every dict of the program. *)
Inductive storable : json -> Prop :=
| storable_null : storable JNull
| storable_bool b : storable (JBool b)
| storable_int n : storable (JInt n)
| storable_str s : storable (JStr s)
| storable_arr l : Forall storable l -> storable (JArr l)
| storable_obj d :
    NoDup (map fst d) -> Forall (fun kv => storable (snd kv)) d -> storable (JObj d).

(** ** Sample worlds

    A machine without speech synthesis, chat credential or knowledge
    backend, an empty disk and an empty todo list; an outside where every
    call succeeds and nobody speaks. *)

Definition plain_config : config :=
  Config false true false None false "/home/shree/.shree_voice/todo.json".

Definition fresh_world : world :=
  World plain_config (fun _ => Absent) (JArr []) [] true [].

Definition calm : env :=
  Env "2024-05-01T09:30:00"
      (fun _ _ => Written)
      (fun _ => Ok true)
      (fun _ => Ok "Hello there.")
      (fun _ => Summary "A summary.")
      (fun _ => None)
      WaitTimeoutError.

(** The outside of [calm] in which the user says [text]. *)
Definition hearing_of (text : string) : env :=
  Env (now_isoformat calm) (disk_write calm) (browser calm) (chat calm) (wiki calm)
      (engine calm) (Heard text).

(** The outside of [calm] in which the browser cannot be launched. *)
Definition browser_error : exn := Exn "Error" "could not locate runnable browser".


(** [fresh_world] with a file at the todo path. *)
Definition world_with_file (f : file_state) : world :=
  set_fs (fs_update (TODO_FILE plain_config) f (fs fresh_world)) fresh_world.

(** A JSON document of another shape than a todo sequence: a list holding
    one plain string. *)
Definition plain_strings_document : string := "[" ++ encode_str "buy milk" ++ "]".


(** ** Construction and entry point *)

(** What the machine offers when the program starts: which optional modules
    import, how the speech engines answer their set-up, the credential in
    the environment, the todo path and the disk. *)
Record platform : Type := Platform {
  pyttsx3_module : bool;            (* import pyttsx3 succeeded *)
  pyttsx3_init : option exn;        (* pyttsx3.init() and setProperty("rate", 175) *)
  sr_module : bool;                 (* import speech_recognition succeeded *)
  sr_setup : option exn;            (* sr.Recognizer() and sr.Microphone() *)
  openai_import : bool;             (* import openai succeeded *)
  wikipedia_import : bool;          (* import wikipedia succeeded *)
  OPENAI_API_KEY : option string;   (* os.environ.get("OPENAI_API_KEY") *)
  todo_path : string;               (* str(TODO_FILE) *)
  disk : string -> file_state
}.

(** [Speaker.__init__]: the value of [self.enabled] it leaves. *)
Definition Speaker_init (P : platform) : bool :=
  if pyttsx3_module P then
    match pyttsx3_init P with
    | None => true
    | Some _ => false
    end
  else false.

Definition SR_MISSING : exn :=
  Exn "RuntimeError"
      "SpeechRecognition not installed. Run: pip install SpeechRecognition pyaudio".

(** [Listener.__init__] *)
Definition Listener_init (P : platform) : result unit :=
  if negb (sr_module P) then Raise SR_MISSING
  else
    match sr_setup P with
    | None => Ok tt
    | Some e => Raise e
    end.

Definition set_conf (c : config) (w : world) : world :=
  World c (fs w) (todo_list w) (chat_history w) (running w) (trace w).


(** [ShreeVoice.__init__] *)
Definition ShreeVoice_init (P : platform) : M unit :=
  let enabled := Speaker_init P in
  listener <-
    try_except
      (lift (Listener_init P) ;; ret true)
      (fun e => print ("Listener unavailable: " ++ exn_msg e) ;; ret false) ;;
  modify (fun w =>
            set_conf (Config enabled listener (openai_module (conf w))
                             (OPENAI_API_KEY P) (wikipedia_module (conf w))
                             (TODO_FILE (conf w))) w) ;;
  modify (set_running true) ;;
  modify (set_chat_history []).


(** ** Reading a trace, continued *)

(** The texts given to the speech engine, in order. *)
Fixpoint spoken (t : list event) : list string :=
  match t with
  | [] => []
  | EngineSay text _ :: t' => text :: spoken t'
  | _ :: t' => spoken t'
  end.

(** The files written, in order: path and text. *)
Fixpoint written (t : list event) : list (string * string) :=
  match t with
  | [] => []
  | WriteText path text :: t' => (path, text) :: written t'
  | _ :: t' => written t'
  end.

(** The message lists sent to the chat service, in order. *)
Fixpoint asked (t : list event) : list (list turn) :=
  match t with
  | [] => []
  | ChatCompletion _ messages _ :: t' => messages :: asked t'
  | _ :: t' => asked t'
  end.

(** The prompts looked up in the knowledge base, in order. *)
Fixpoint looked_up (t : list event) : list string :=
  match t with
  | [] => []
  | WikiSummary prompt _ :: t' => prompt :: looked_up t'
  | _ :: t' => looked_up t'
  end.

(** How often [Listener.listen] was entered. *)
Fixpoint listens (t : list event) : nat :=
  match t with
  | [] => 0
  | Listen _ _ :: t' => S (listens t')
  | _ :: t' => listens t'
  end.

(** The assistant's side of the transcript: the lines [say] printed. *)
Definition transcript (t : list event) : list string :=
  filter (fun line => startswith line "Shree: ") (printed t).

(** An event a command handler may cause: anything but speech, listening
    and routing, which belong to [run]. *)
Definition handler_event (ev : event) : bool :=
  match ev with
  | EngineSay _ _ | Listen _ _ | Route _ => false
  | _ => true
  end.

(** A cycle in which the loop gets nothing to act on: silence, speech not
    made out, a failed recognition request, or an empty transcript. *)
Definition silent (E : env) : bool :=
  match hear E with
  | Heard text => String.eqb text EmptyString
  | ListenFailed _ => false
  | _ => true
  end.

(** Whether the loop stops on an utterance. *)
Definition is_exit (text : string) : bool :=
  str_in (strip (lower text)) EXIT_PHRASES.

(** The utterances the loop hands to the router, were no call to raise: the
    non-empty transcripts heard before the first exit phrase. *)
Fixpoint utterances_to_route (script : list env) : list string :=
  match script with
  | [] => []
  | E :: rest =>
      match hear E with
      | Heard text =>
          if String.eqb text EmptyString then utterances_to_route rest
          else if is_exit text then []
          else text :: utterances_to_route rest
      | ListenFailed _ => []
      | _ => utterances_to_route rest
      end
  end.

(** The reply of the knowledge lookup, which answers when the chat service
    gave no reply. *)
Definition knowledge_reply (c : config) (E : env) (prompt : string) : string :=
  if wikipedia_module c then
    match wiki E prompt with
    | Summary text => text
    | DisambiguationError options =>
        "Your query is ambiguous. Try one of these: " ++ join ", " (firstn 5 options)
    | PageError => "I couldn't find anything on Wikipedia."
    | WikiFailed _ => APOLOGY
    end
  else APOLOGY.

(** The footprint of a computation: it keeps the configuration and the
    [running] flag, and adds to the trace only handler events, none of them
    a line of the assistant's transcript. *)
Definition handler_footprint {A : Type} (m : M A) : Prop :=
  forall w,
    conf (world_of (m w)) = conf w /\
    running (world_of (m w)) = running w /\
    exists added,
      trace (world_of (m w)) = (trace w ++ added)%list /\
      forallb handler_event added = true /\
      transcript added = [].

(** A machine with the chat module, a credential and the knowledge base. *)
Definition chatty_config : config :=
  Config false true true (Some "sk-test") true "/home/shree/.shree_voice/todo.json".

Definition chatty_world : world :=
  World chatty_config (fun _ => Absent) (JArr []) [] true [].

(** * Proofs *)

(** ** Tactics for the effect monad *)

Ltac unfold_m :=
  unfold print in *; unfold emit in *;
  unfold bind, ret, raise, try_except, lift, gets, modify in *.

Ltac run_m := unfold_m; simpl.

Arguments json_parse : simpl never.
Arguments json_dumps : simpl never.

(** ** Facts about text *)

Lemma isspace_lower_char (c : ascii) : isspace (lower_char c) = isspace c.
Proof.
  destruct c as [[] [] [] [] [] [] [] []]; reflexivity.
Qed.

Lemma lower_app (a b : string) : lower (a ++ b) = lower a ++ lower b.
Proof.
  induction a as [|c a IH]; simpl; [reflexivity | now rewrite IH].
Qed.

Lemma length_lower (s : string) : String.length (lower s) = String.length s.
Proof.
  induction s as [|c s IH]; simpl; [reflexivity | now rewrite IH].
Qed.

Lemma lower_lstrip (s : string) : lstrip (lower s) = lower (lstrip s).
Proof.
  induction s as [|c s IH]; simpl; [reflexivity |].
  rewrite isspace_lower_char. destruct (isspace c); [exact IH | reflexivity].
Qed.

Lemma lower_rstrip (s : string) : rstrip (lower s) = lower (rstrip s).
Proof.
  induction s as [|c s IH]; simpl; [reflexivity |].
  rewrite IH, isspace_lower_char.
  destruct (rstrip s); simpl; [destruct (isspace c)|]; reflexivity.
Qed.

Lemma lower_strip (s : string) : strip (lower s) = lower (strip s).
Proof.
  unfold strip. now rewrite lower_lstrip, lower_rstrip.
Qed.

Lemma startswith_split (s p : string) :
  startswith s p = true -> s = p ++ slice_from (String.length p) s.
Proof.
  unfold startswith. revert s.
  induction p as [|c p IH]; intros s H; simpl.
  - now destruct s.
  - destruct s as [|d s]; simpl in H; [discriminate |].
    destruct (ascii_dec c d) as [->|]; [| discriminate].
    simpl. f_equal. now apply IH.
Qed.

Lemma startswith_app (p r : string) : startswith (p ++ r) p = true.
Proof.
  unfold startswith. induction p as [|c p IH]; simpl.
  - now destruct r.
  - destruct (ascii_dec c c); [exact IH | congruence].
Qed.

Lemma slice_from_app (p r : string) : slice_from (String.length p) (p ++ r) = r.
Proof.
  induction p as [|c p IH]; simpl; [now destruct r | exact IH].
Qed.

Lemma length_lstrip (s : string) : String.length (lstrip s) <= String.length s.
Proof.
  induction s as [|c s IH]; simpl; [lia |]. destruct (isspace c); simpl; lia.
Qed.

Lemma length_rstrip (s : string) : String.length (rstrip s) <= String.length s.
Proof.
  induction s as [|c s IH]; simpl; [lia |].
  destruct (rstrip s); simpl in *; [destruct (isspace c); simpl; lia | lia].
Qed.

Lemma lstrip_fixed (s : string) :
  String.length (lstrip s) = String.length s -> lstrip s = s.
Proof.
  destruct s as [|c s]; simpl; [reflexivity |].
  destruct (isspace c); [| reflexivity].
  intros H. pose proof (length_lstrip s). lia.
Qed.

Lemma rstrip_fixed (s : string) :
  String.length (rstrip s) = String.length s -> rstrip s = s.
Proof.
  induction s as [|c s IH]; simpl; [reflexivity |].
  pose proof (length_rstrip s) as Hl.
  destruct (rstrip s) as [|d r] eqn:Hr.
  - destruct (isspace c); simpl; intros H; [lia |].
    simpl in Hl. destruct s; [reflexivity | simpl in H; lia].
  - simpl. intros H. f_equal. apply IH. simpl in *. lia.
Qed.

(** A text that [strip] leaves alone has no blank at either end. *)
Lemma strip_fixed (s : string) : strip s = s -> lstrip s = s /\ rstrip s = s.
Proof.
  unfold strip. intros H.
  pose proof (length_lstrip s) as Hl.
  pose proof (length_rstrip (lstrip s)) as Hr.
  assert (Hs : lstrip s = s).
  { apply lstrip_fixed. rewrite H in Hr. lia. }
  split; [exact Hs | now rewrite Hs in H].
Qed.

Lemma rstrip_cons (c : ascii) (s : string) :
  rstrip s <> EmptyString -> rstrip (String c s) = String c (rstrip s).
Proof.
  simpl. destruct (rstrip s); [congruence | reflexivity].
Qed.

Lemma rstrip_app (a b : string) :
  rstrip b <> EmptyString -> rstrip (a ++ b) = a ++ rstrip b.
Proof.
  intros Hb. induction a as [|c a IH]; simpl; [reflexivity |].
  rewrite IH. destruct (a ++ rstrip b) eqn:E; [| reflexivity].
  destruct a; simpl in E; [congruence | discriminate].
Qed.

Lemma lower_nonempty (s : string) : s <> EmptyString -> lower s <> EmptyString.
Proof. destruct s; simpl; congruence. Qed.

(** ** The router's branches *)

Lemma prefix_empty (s : string) : prefix EmptyString s = true.
Proof. now destruct s. Qed.


Lemma route_add_todo (E : env) (text : string) :
  startswith (strip (lower text)) "add todo " = true ->
  handle_command E text = _add_todo E (strip (slice_from 9 text)).
Proof.
  intros H. unfold handle_command.
  rewrite (startswith_split _ _ H). unfold startswith. simpl.
  now rewrite prefix_empty.
Qed.

Lemma str_in_cases (x : string) (l : list string) :
  str_in x l = true -> In x l.
Proof.
  unfold str_in. intros H. apply existsb_exists in H as (y & Hy & Hxy).
  apply String.eqb_eq in Hxy. now subst.
Qed.

Lemma route_list_todo (E : env) (text : string) :
  str_in (strip (lower text)) ["list todo"; "show todo"; "todos"] = true ->
  handle_command E text = _list_todo.
Proof.
  intros H. apply str_in_cases in H. unfold handle_command.
  destruct H as [<- | [<- | [<- | []]]]; reflexivity.
Qed.

Lemma route_fallback (E : env) (text : string) :
  str_in (strip (lower text)) ["hi"; "hello"; "hey"] = false ->
  startswith (strip (lower text)) "open " = false ->
  startswith (strip (lower text)) "add todo " = false ->
  str_in (strip (lower text)) ["list todo"; "show todo"; "todos"] = false ->
  handle_command E text = _answer_with_ai E text.
Proof.
  intros H1 H2 H3 H4. unfold handle_command. now rewrite H1, H2, H3, H4.
Qed.

(** ** What each handler leaves of the world *)

Lemma say_spec (E : env) (text : string) (wait : bool) (w : world) :
  say E text wait w
  = (Ok tt, set_trace (trace w ++ say_trace (conf w) E text wait) w).
Proof.
  unfold say, say_trace. run_m.
  destruct (tts_enabled (conf w)) eqn:Ht; simpl.
  - destruct (engine E text); simpl; unfold set_trace; simpl;
      repeat rewrite <- List.app_assoc; reflexivity.
  - reflexivity.
Qed.

Lemma open_website_spec (E : env) (target : string) (w : world) :
  let url := get_or (lower target) shortcuts
               (SEARCH_PREFIX ++ replace_char " " "+" target) in
  _open_website E target w
  = (match browser E url with
     | Ok _ => Ok ("Opening " ++ target)
     | Raise e => Raise e
     end,
     set_trace (trace w ++ [BrowserOpen url]) w).
Proof.
  unfold _open_website, webbrowser_open. run_m.
  destruct (browser E _); reflexivity.
Qed.

Lemma list_todo_spec (w : world) :
  _list_todo w = (list_todo_text (todo_list w), w).
Proof. reflexivity. Qed.

Lemma save_json_todo_list (E : env) (path : string) (data : json) (w : world) :
  todo_list (world_of (save_json E path data w)) = todo_list w /\
  value_of (save_json E path data w) = Ok tt.
Proof.
  unfold save_json, write_text, world_of, value_of. run_m.
  destruct (disk_write E path (json_dumps data)); simpl; split; reflexivity.
Qed.

Lemma add_todo_on_list (E : env) (item : string) (w : world) (l : list json) :
  todo_list w = JArr l ->
  value_of (_add_todo E item w) = Ok ("Added to your todo list: " ++ item) /\
  todo_list (world_of (_add_todo E item w))
  = JArr (l ++ [todo_record item (now_isoformat E)]).
Proof.
  intros Hl. unfold _add_todo, todo_append, save_json, write_text, world_of, value_of.
  run_m. rewrite Hl. simpl.
  destruct (disk_write E _ _); simpl; split; reflexivity.
Qed.

Lemma add_todo_off_list (E : env) (item : string) (w : world) :
  (forall l, todo_list w <> JArr l) ->
  _add_todo E item w = (Raise AttributeError, w).
Proof.
  intros Hl. unfold _add_todo, todo_append. run_m.
  destruct (todo_list w) eqn:Ht; try reflexivity.
  now destruct (Hl items).
Qed.

Lemma answer_with_ai_total (E : env) (prompt : string) (w : world) :
  exists reply, value_of (_answer_with_ai E prompt w) = Ok reply.
Proof.
  unfold _answer_with_ai, chat_completion, wikipedia_summary, history_append, value_of.
  run_m.
  destruct (openai_module (conf w) && key_configured (conf w)); simpl.
  - destruct (chat E _); simpl; [eexists; reflexivity |].
    destruct (wikipedia_module (conf w)); simpl; [| eexists; reflexivity].
    destruct (wiki E prompt); simpl; eexists; reflexivity.
  - destruct (wikipedia_module (conf w)); simpl; [| eexists; reflexivity].
    destruct (wiki E prompt); simpl; eexists; reflexivity.
Qed.

Lemma answer_with_ai_todo_list (E : env) (prompt : string) (w : world) :
  todo_list (world_of (_answer_with_ai E prompt w)) = todo_list w.
Proof.
  unfold _answer_with_ai, chat_completion, wikipedia_summary, history_append, world_of.
  run_m.
  destruct (openai_module (conf w) && key_configured (conf w)); simpl.
  - destruct (chat E _); simpl; [reflexivity |].
    destruct (wikipedia_module (conf w)); simpl; [| reflexivity].
    destruct (wiki E prompt); reflexivity.
  - destruct (wikipedia_module (conf w)); simpl; [| reflexivity].
    destruct (wiki E prompt); reflexivity.
Qed.

Lemma append_assoc (a b c : string) : (a ++ b) ++ c = a ++ b ++ c.
Proof.
  induction a as [|x a IH]; simpl; [reflexivity | now rewrite IH].
Qed.

Lemma append_empty_r (a : string) : a ++ EmptyString = a.
Proof.
  induction a as [|x a IH]; simpl; [reflexivity | now rewrite IH].
Qed.

(** ** Persistence: loading *)

Lemma load_json_parsed (path : string) (default : json) (w : world)
      (text : string) (v : json) :
  fs w path = Holds text -> json_parse text = Some v ->
  load_json path default w = (Ok v, w).
Proof.
  intros Hf Hp. unfold load_json, path_exists, read_text, json_loads. run_m.
  rewrite Hf. simpl. rewrite Hf. simpl. now rewrite Hp.
Qed.




(** ** Listing *)

Lemma todo_lines_total (l : list json) :
  Forall has_item l ->
  forall i, exists lines, todo_lines (enumerate_from i l) = Ok lines.
Proof.
  induction 1 as [|v l (d & x & -> & Hx) _ IH]; intros i; simpl.
  - eexists; reflexivity.
  - rewrite Hx. destruct (IH (S i)) as [lines ->]. eexists; reflexivity.
Qed.

Lemma list_todo_text_total (l : list json) :
  Forall has_item l -> exists s, list_todo_text (JArr l) = Ok s.
Proof.
  intros H. unfold list_todo_text.
  destruct l as [|v l]; simpl negb; cbv iota; [eexists; reflexivity |].
  unfold py_iter. destruct (todo_lines_total _ H 0) as [lines ->].
  eexists; reflexivity.
Qed.

Lemma todo_lines_records (records : list (string * string)) (i : nat) :
  exists lines,
    todo_lines (enumerate_from i (map (fun r => todo_record (fst r) (snd r)) records))
    = Ok lines /\
    join "; " lines = numbered_listing (S i) (map fst records).
Proof.
  revert i. induction records as [|r records IH]; intros i; simpl.
  - eexists; split; reflexivity.
  - destruct (IH (S i)) as (lines & Hl & Hj).
    simpl in Hl. rewrite Hl. eexists; split; [reflexivity |].
    rewrite Nat.add_1_r. unfold join in *. simpl.
    destruct records as [|r' records].
    + simpl in Hl. injection Hl as <-. reflexivity.
    + simpl in Hl.
      destruct (todo_lines _) as [lines' |]; [| discriminate].
      injection Hl as <-. rewrite Hj. simpl.
      now rewrite !append_assoc.
Qed.

Lemma list_todo_text_records (records : list (string * string)) :
  records <> [] ->
  list_todo_text (todo_sequence records)
  = Ok ("Here are your todos: " ++ numbered_listing 1 (map fst records)).
Proof.
  intros Hne. unfold list_todo_text, todo_sequence.
  destruct records as [|r records]; [congruence |].
  change (truthy _) with true. cbv iota beta. simpl negb. cbv iota.
  unfold py_iter.
  destruct (todo_lines_records (r :: records) 0) as (lines & -> & ->).
  reflexivity.
Qed.

(** C5.  An utterance that is "list todo", "show todo" or "todos" once
    lower-cased and trimmed lists the todos: on an empty sequence the reply is
    the fixed empty message; on a non-empty sequence of records it is the
    items in insertion order, numbered from 1 and joined by "; ", so that the
    items "buy milk" and "call mom" give exactly
    "Here are your todos: 1. buy milk; 2. call mom".  Nothing else changes. *)
Theorem list_todo_reply :
  (forall E text w,
      str_in (strip (lower text)) ["list todo"; "show todo"; "todos"] = true ->
      todo_list w = JArr [] ->
      handle_command E text w = (Ok "Your todo list is empty.", w)) /\
  (forall E text w records,
      str_in (strip (lower text)) ["list todo"; "show todo"; "todos"] = true ->
      records <> [] ->
      todo_list w = todo_sequence records ->
      handle_command E text w
      = (Ok ("Here are your todos: " ++ numbered_listing 1 (map fst records)), w)) /\
  (forall t1 t2,
      list_todo_text (todo_sequence [("buy milk", t1); ("call mom", t2)])
      = Ok "Here are your todos: 1. buy milk; 2. call mom").
Proof.
  split; [| split].
  - intros E text w Hu Hl. rewrite (route_list_todo E text Hu), list_todo_spec.
    now rewrite Hl.
  - intros E text w records Hu Hne Hl.
    rewrite (route_list_todo E text Hu), list_todo_spec, Hl.
    now rewrite list_todo_text_records.
  - reflexivity.
Qed.

Lemma list_todo_reply_witness :
  handle_command calm " Show TODO "
    (set_todo_list (todo_sequence [("buy milk", "t1"); ("call mom", "t2")]) fresh_world)
  = (Ok "Here are your todos: 1. buy milk; 2. call mom",
     set_todo_list (todo_sequence [("buy milk", "t1"); ("call mom", "t2")]) fresh_world).
Proof.
  apply (proj1 (proj2 list_todo_reply) calm " Show TODO " _
               [("buy milk", "t1"); ("call mom", "t2")]).
  - reflexivity.
  - discriminate.
  - reflexivity.
Defined.

(** C10.  [_list_todo] returns a reply for every non-empty todo sequence
    whose elements are all records containing the key ['item'].  [load_json]
    establishes no such shape: it returns whatever value the text of the file
    parses to, so a file holding a JSON list of plain strings is loaded as
    the todo list, on which [_list_todo] then raises. *)
Theorem list_todo_needs_items_load_checks_none :
  (forall w l,
      l <> [] -> Forall has_item l -> todo_list w = JArr l ->
      exists reply, _list_todo w = (Ok reply, w)) /\
  (forall path default w text v,
      fs w path = Holds text -> json_parse text = Some v ->
      load_json path default w = (Ok v, w)) /\
  (let w := world_with_file (Holds plain_strings_document) in
   let w' := set_todo_list (JArr [JStr "buy milk"]) w in
   import_module w = (Ok tt, w') /\
   _list_todo w' = (Raise TypeError, w')).
Proof.
  split; [| split].
  - intros w l _ Hl Hw. rewrite list_todo_spec, Hw.
    destruct (list_todo_text_total l Hl) as [s ->]. now exists s.
  - intros path default w text v Hf Hp.
    exact (load_json_parsed path default w text v Hf Hp).
  - split; reflexivity.
Qed.

Lemma list_todo_needs_items_load_checks_none_witness :
  exists reply,
    _list_todo (set_todo_list (todo_sequence [("buy milk", "t1")]) fresh_world)
    = (Ok reply, set_todo_list (todo_sequence [("buy milk", "t1")]) fresh_world).
Proof.
  apply (proj1 list_todo_needs_items_load_checks_none _ [todo_record "buy milk" "t1"]).
  - discriminate.
  - repeat constructor. exists [("item", JStr "buy milk"); ("added_at", JStr "t1")], (JStr "buy milk").
    split; reflexivity.
  - reflexivity.
Defined.

(** ** The knowledge fallback *)

(** C3.  [_answer_with_ai] returns a reply for every prompt, whatever the
    chat and knowledge services answer; without a chat credential and
    without a knowledge backend the reply is the fixed apology, and nothing
    else happens. *)
Theorem answer_with_ai_never_raises (E : env) (prompt : string) (w : world) :
  (exists reply, value_of (_answer_with_ai E prompt w) = Ok reply) /\
  (key_configured (conf w) = false -> wikipedia_module (conf w) = false ->
   _answer_with_ai E prompt w = (Ok APOLOGY, w)).
Proof.
  split; [apply answer_with_ai_total |].
  intros Hk Hw. unfold _answer_with_ai. run_m.
  rewrite Hk, Hw, andb_false_r. reflexivity.
Qed.

Lemma answer_with_ai_never_raises_witness :
  _answer_with_ai calm "who wrote Hamlet" fresh_world = (Ok APOLOGY, fresh_world).
Proof.
  apply (proj2 (answer_with_ai_never_raises calm "who wrote Hamlet" fresh_world));
    reflexivity.
Defined.

(** ** Opening a site *)

Lemma printed_app (a b : list event) : printed (a ++ b) = (printed a ++ printed b)%list.
Proof.
  induction a as [|[] a IH]; simpl; try exact IH; [reflexivity | now rewrite IH].
Qed.


Lemma routed_app (a b : list event) : routed (a ++ b) = (routed a ++ routed b)%list.
Proof.
  induction a as [|[] a IH]; simpl; try exact IH; [reflexivity | now rewrite IH].
Qed.





(** An utterance made of a command word and a name: what the router sees
    of it. *)
Lemma command_shape (p name : string) (word : string) :
  lower p = word -> lstrip word = word -> word <> EmptyString ->
  strip name = name -> name <> EmptyString ->
  strip (lower (p ++ name)) = word ++ lower name /\
  slice_from (String.length word) (p ++ name) = name.
Proof.
  intros Hp Hw Hne Hs Hn. split.
  - rewrite lower_app, Hp. unfold strip.
    assert (Hl : lstrip (word ++ lower name) = word ++ lower name).
    { destruct word as [|c word]; [congruence |]. simpl in *.
      destruct (isspace c); [| reflexivity].
      pose proof (length_lstrip word) as Hlen. rewrite Hw in Hlen. simpl in Hlen. lia. }
    rewrite Hl. rewrite rstrip_app.
    + f_equal. rewrite lower_rstrip. f_equal. now apply strip_fixed.
    + rewrite lower_rstrip. apply lower_nonempty.
      destruct (strip_fixed name Hs) as [_ ->]. exact Hn.
  - rewrite <- Hp, length_lower. apply slice_from_app.
Qed.



(** ** Adding a todo *)

Lemma add_todo_spec (E : env) (item : string) (w : world) (l : list json) :
  todo_list w = JArr l ->
  let todos := JArr (l ++ [todo_record item (now_isoformat E)]) in
  let path := TODO_FILE (conf w) in
  let r := _add_todo E item w in
  value_of r = Ok ("Added to your todo list: " ++ item) /\
  todo_list (world_of r) = todos /\
  (disk_write E path (json_dumps todos) = Written ->
   trace (world_of r) = (trace w ++ [WriteText path (json_dumps todos)])%list /\
   fs (world_of r) path = Holds (json_dumps todos)).
Proof.
  intros Hl. cbv zeta.
  unfold _add_todo, todo_append, save_json, write_text, world_of, value_of.
  run_m. rewrite Hl. simpl.
  destruct (disk_write E _ _) eqn:Hd; simpl; repeat split; try discriminate.
  unfold fs_update. now rewrite String.eqb_refl.
Qed.

(** Off the defect recorded under C1: for an utterance that starts with the
    words "add todo " in any casing, the stored item is the rest of the
    utterance, casing kept. *)
Lemma add_todo_command (E : env) (p item : string) (w : world) (l : list json) :
  lower p = "add todo " -> strip item = item -> item <> EmptyString ->
  todo_list w = JArr l ->
  let todos := JArr (l ++ [todo_record item (now_isoformat E)]) in
  let path := TODO_FILE (conf w) in
  let r := handle_command E (p ++ item) w in
  value_of r = Ok ("Added to your todo list: " ++ item) /\
  todo_list (world_of r) = todos /\
  (disk_write E path (json_dumps todos) = Written ->
   trace (world_of r) = (trace w ++ [WriteText path (json_dumps todos)])%list /\
   fs (world_of r) path = Holds (json_dumps todos)).
Proof.
  intros Hp Hs Hn Hl.
  destruct (command_shape p item "add todo " Hp eq_refl ltac:(discriminate) Hs Hn)
    as [Hshape Hslice].
  rewrite route_add_todo by (rewrite Hshape; apply startswith_app).
  change 9 with (String.length "add todo "). rewrite Hslice, Hs.
  now apply add_todo_spec.
Qed.

(** C1, where the code departs from it.  The utterance "  add todo milk"
    is an "add todo" utterance once lower-cased and trimmed, and its
    remainder is "milk"; [handle_command] cuts the first nine characters off
    the untrimmed utterance instead and stores, writes and echoes the item
    "o milk". *)
Theorem add_todo_leading_blanks_shift_item :
  let text := "  add todo milk" in
  let r := handle_command calm text fresh_world in
  let todos := JArr [todo_record "o milk" (now_isoformat calm)] in
  startswith (strip (lower text)) "add todo " = true /\
  slice_from 9 (strip text) = "milk" /\
  value_of r = Ok "Added to your todo list: o milk" /\
  todo_list (world_of r) = todos /\
  fs (world_of r) (TODO_FILE plain_config) = Holds (json_dumps todos).
Proof. repeat split. Qed.

(** ** The todo sequence only grows *)

(** C9.  Whatever the utterance and whatever the outside answers,
    [handle_command] leaves the todo list as it was or appends one element
    to it; it appends only on an utterance that, lower-cased and trimmed,
    starts with "add todo ", and on such an utterance it always appends to a
    todo list that is a sequence. *)
Theorem todo_list_append_only (E : env) (text : string) (w : world) :
  let w' := world_of (handle_command E text w) in
  (todo_list w' = todo_list w \/
   exists l r,
     todo_list w = JArr l /\ todo_list w' = JArr (l ++ [r]) /\
     startswith (strip (lower text)) "add todo " = true) /\
  (forall l,
      startswith (strip (lower text)) "add todo " = true ->
      todo_list w = JArr l ->
      exists r, todo_list w' = JArr (l ++ [r])).
Proof.
  cbv zeta. split.
  - unfold handle_command.
    destruct (str_in (strip (lower text)) ["hi"; "hello"; "hey"]); [now left |].
    destruct (startswith (strip (lower text)) "open ").
    { left. pose proof (open_website_spec E (strip (slice_from 5 text)) w) as Hs.
      cbv zeta in Hs. now rewrite Hs. }
    destruct (startswith (strip (lower text)) "add todo ") eqn:Hadd.
    { destruct (todo_list w) as [| | | |l|] eqn:Hl;
        try (left; rewrite add_todo_off_list;
             [exact Hl | intros l0; rewrite Hl; discriminate]).
      right. exists l, (todo_record (strip (slice_from 9 text)) (now_isoformat E)).
      repeat split. now apply add_todo_on_list. }
    destruct (str_in (strip (lower text)) ["list todo"; "show todo"; "todos"]);
      [now left |].
    left. apply answer_with_ai_todo_list.
  - intros l Hadd Hl. rewrite (route_add_todo E text Hadd).
    eexists. now apply add_todo_on_list.
Qed.

Lemma todo_list_append_only_witness :
  exists r,
    todo_list (world_of (handle_command calm "add todo call mom" fresh_world))
    = JArr ([] ++ [r]).
Proof.
  apply (proj2 (todo_list_append_only calm "add todo call mom" fresh_world) []);
    reflexivity.
Defined.

(** The same slicing misreads the name of an "open" utterance given with
    leading blanks: "  open youtube" opens a search for "n youtube". *)
Example open_leading_blanks_shift_name :
  handle_command calm "  open youtube" fresh_world
  = (Ok "Opening n youtube",
     set_trace [BrowserOpen "https://www.google.com/search?q=n+youtube"] fresh_world).
Proof. reflexivity. Qed.

(** ** The main loop *)

Lemma listen_spec (E : env) (w : world) :
  listen E 6 10 w
  = match hear E with
    | Heard text =>
        (Ok (Some text),
         set_trace (trace w ++ [Listen 6 10; Print "(Listening...)";
                                Print ("User: " ++ text)]) w)
    | RequestError e =>
        (Ok None,
         set_trace (trace w ++ [Listen 6 10; Print "(Listening...)";
                                Print ("Speech API error: " ++ exn_msg e)]) w)
    | ListenFailed e =>
        (Raise e, set_trace (trace w ++ [Listen 6 10; Print "(Listening...)"]) w)
    | _ => (Ok None, set_trace (trace w ++ [Listen 6 10; Print "(Listening...)"]) w)
    end.
Proof.
  unfold listen. run_m.
  destruct (hear E); simpl; unfold set_trace; simpl;
    repeat rewrite <- List.app_assoc; reflexivity.
Qed.

Lemma main_loop_cons (E : env) (rest : list env) (w : world) :
  main_loop (E :: rest) w
  = if running w then
      match listen E 6 10 w with
      | (Raise e, w1) => (Raise e, w1)
      | (Ok None, w1) => main_loop rest w1
      | (Ok (Some text), w1) =>
          if String.eqb text EmptyString then main_loop rest w1
          else if str_in (strip (lower text)) EXIT_PHRASES then
            (Ok Returned,
             set_running false
               (set_trace (trace w1 ++ say_trace (conf w1) E FAREWELL true) w1))
          else
            match handle_command E text (set_trace (trace w1 ++ [Route text]) w1) with
            | (Raise e, w2) => (Raise e, w2)
            | (Ok response, w2) =>
                main_loop rest
                  (set_trace (trace w2 ++ say_trace (conf w2) E response true) w2)
            end
      end
    else (Ok Returned, w).
Proof.
  cbn [main_loop]. unfold bind at 1. unfold gets at 1.
  destruct (running w); [| reflexivity].
  unfold bind at 1. destruct (listen E 6 10 w) as [[[text|]|e] w1]; try reflexivity.
  destruct (String.eqb text EmptyString); [reflexivity |].
  destruct (str_in (strip (lower text)) EXIT_PHRASES).
  - unfold bind. rewrite say_spec. reflexivity.
  - unfold bind at 1. unfold emit, modify.
    unfold bind at 1.
    destruct (handle_command E text _) as [[response|e] w2]; [| reflexivity].
    unfold bind. now rewrite say_spec.
Qed.

Lemma main_loop_stopped (script : list env) (w : world) :
  running w = false -> main_loop script w = (Ok Returned, w).
Proof.
  intros H. destruct script as [|E rest].
  - cbn. unfold bind, gets, ret. now rewrite H.
  - now rewrite main_loop_cons, H.
Qed.

(** A loop that has used up [pre] and is about to listen again goes on with
    whatever follows [pre]. *)
Lemma main_loop_resume (pre : list env) (w w1 : world) :
  main_loop pre w = (Ok Listening, w1) ->
  running w1 = true /\
  forall more, main_loop (pre ++ more) w = main_loop more w1.
Proof.
  revert w. induction pre as [|E pre IH]; intros w H.
  - cbn in H. unfold bind, gets, ret in H.
    destruct (running w) eqn:Hr; inversion H; subst. auto.
  - rewrite main_loop_cons in H.
    assert (Hgoal : forall more,
               main_loop ((E :: pre) ++ more) w
               = if running w then
                   match listen E 6 10 w with
                   | (Raise e, w1) => (Raise e, w1)
                   | (Ok None, w1) => main_loop (pre ++ more) w1
                   | (Ok (Some text), w1) =>
                       if String.eqb text EmptyString then main_loop (pre ++ more) w1
                       else if str_in (strip (lower text)) EXIT_PHRASES then
                         (Ok Returned,
                          set_running false
                            (set_trace (trace w1 ++ say_trace (conf w1) E FAREWELL true) w1))
                       else
                         match handle_command E text
                                 (set_trace (trace w1 ++ [Route text]) w1) with
                         | (Raise e, w2) => (Raise e, w2)
                         | (Ok response, w2) =>
                             main_loop (pre ++ more)
                               (set_trace
                                  (trace w2 ++ say_trace (conf w2) E response true) w2)
                         end
                   end
                 else (Ok Returned, w)).
    { intros more. simpl app. apply main_loop_cons. }
    destruct (running w); [| discriminate].
    destruct (listen E 6 10 w) as [[[text|]|e] w'].
    + destruct (String.eqb text EmptyString).
      * destruct (IH _ H) as [Hr Hm]. split; [exact Hr |].
        intros more. rewrite Hgoal. apply Hm.
      * destruct (str_in (strip (lower text)) EXIT_PHRASES); [discriminate |].
        destruct (handle_command E text _) as [[response|e] w2]; [| discriminate].
        destruct (IH _ H) as [Hr Hm]. split; [exact Hr |].
        intros more. rewrite Hgoal. apply Hm.
    + destruct (IH _ H) as [Hr Hm]. split; [exact Hr |].
      intros more. rewrite Hgoal. apply Hm.
    + discriminate.
Qed.

Lemma exit_phrase_not_empty (text : string) :
  str_in (strip (lower text)) EXIT_PHRASES = true -> String.eqb text EmptyString = false.
Proof.
  destruct text; [discriminate | reflexivity].
Qed.

(** C8.  Let the loop have used up the cycles [pre] and be listening.  If the
    next utterance recognised is an exit phrase once lower-cased and trimmed,
    the loop listens, says the farewell once, clears [running] and returns:
    the utterance is not handed to [handle_command], what the outside offers
    afterwards ([rest]) is never used, and a loop entered again in that state
    returns at once without any effect. *)
Theorem exit_phrase_ends_loop
        (pre rest : list env) (E : env) (text : string) (w w1 : world) :
  main_loop pre w = (Ok Listening, w1) ->
  hear E = Heard text ->
  str_in (strip (lower text)) EXIT_PHRASES = true ->
  let cycle :=
    ([Listen 6 10; Print "(Listening...)"; Print ("User: " ++ text)]
       ++ say_trace (conf w1) E FAREWELL true)%list in
  let w2 := set_running false (set_trace (trace w1 ++ cycle) w1) in
  main_loop (pre ++ E :: rest) w = (Ok Returned, w2) /\
  count_line ("Shree: " ++ FAREWELL) cycle = 1 /\
  routed cycle = [] /\
  (forall more, main_loop more w2 = (Ok Returned, w2)).
Proof.
  intros Hpre Hear Hexit. cbv zeta.
  destruct (main_loop_resume pre w w1 Hpre) as [Hrun Hmore].
  split; [| split; [| split]].
  - rewrite Hmore, main_loop_cons, Hrun, listen_spec, Hear.
    rewrite (exit_phrase_not_empty text Hexit), Hexit.
    unfold set_running, set_trace. simpl. now rewrite <- List.app_assoc.
  - unfold say_trace, count_line. simpl.
    destruct (tts_enabled (conf w1)); [| reflexivity].
    destruct (engine E FAREWELL); reflexivity.
  - unfold say_trace. simpl.
    destruct (tts_enabled (conf w1)); [| reflexivity].
    destruct (engine E FAREWELL); reflexivity.
  - intros more. now apply main_loop_stopped.
Qed.

Lemma exit_phrase_ends_loop_witness :
  main_loop ([calm; hearing_of "add todo call mom"] ++ hearing_of " Goodbye " :: [calm])
    fresh_world
  = (Ok Returned,
     set_running false
       (set_trace
          (trace (world_of (main_loop [calm; hearing_of "add todo call mom"] fresh_world))
             ++ [Listen 6 10; Print "(Listening...)"; Print "User:  Goodbye ";
                 Print "Shree: Goodbye! Have a great day!"])
          (world_of (main_loop [calm; hearing_of "add todo call mom"] fresh_world)))).
Proof.
  apply (exit_phrase_ends_loop [calm; hearing_of "add todo call mom"] [calm]
           (hearing_of " Goodbye ") " Goodbye " fresh_world
           (world_of (main_loop [calm; hearing_of "add todo call mom"] fresh_world)));
    reflexivity.
Defined.

(** [run] greets, and with a listener enters the loop. *)
Lemma run_with_listener (E0 : env) (script : list env) (w : world) :
  has_listener (conf w) = true ->
  run E0 script w
  = main_loop script (set_trace (trace w ++ say_trace (conf w) E0 WELCOME true) w).
Proof.
  intros Hl. unfold run. unfold bind at 1. rewrite say_spec.
  unfold bind, gets. simpl. now rewrite Hl.
Qed.


(** ** Persistence: the round trip through [json] *)

Lemma length_append (a b : string) :
  String.length (a ++ b) = String.length a + String.length b.
Proof.
  induction a as [|c a IH]; simpl; [reflexivity | now rewrite IH].
Qed.

Lemma json_induction (P : json -> Prop) :
  P JNull ->
  (forall b, P (JBool b)) ->
  (forall n, P (JInt n)) ->
  (forall s, P (JStr s)) ->
  (forall l, Forall P l -> P (JArr l)) ->
  (forall d, Forall (fun kv => P (snd kv)) d -> P (JObj d)) ->
  forall v, P v.
Proof.
  intros HN HB HI HS HA HO.
  fix IH 1. intros [ | b | n | s | l | d].
  - exact HN.
  - apply HB.
  - apply HI.
  - apply HS.
  - apply HA.
    exact ((fix all (l : list json) : Forall P l :=
              match l with
              | [] => Forall_nil P
              | x :: l' => Forall_cons x (IH x) (all l')
              end) l).
  - apply HO.
    exact ((fix all (d : list (string * json)) : Forall (fun kv => P (snd kv)) d :=
              match d with
              | [] => Forall_nil _
              | kv :: d' => Forall_cons kv (IH (snd kv)) (all d')
              end) d).
Qed.

(** *** Whitespace *)

Lemma skip_ws_spaces (n : nat) (s : string) : skip_ws (spaces n ++ s) = skip_ws s.
Proof. induction n as [|n IH]; simpl; [reflexivity | exact IH]. Qed.

Lemma skip_ws_newline_indent (lvl : nat) (s : string) :
  skip_ws (newline_indent lvl ++ s) = skip_ws s.
Proof. unfold newline_indent. simpl. apply skip_ws_spaces. Qed.

Lemma skip_ws_opens (s : string) : opens s = true -> skip_ws s = s.
Proof.
  destruct s as [|c s]; simpl; [reflexivity |].
  destruct (json_ws c); [discriminate | reflexivity].
Qed.

Lemma closed_newline_indent (lvl : nat) (s : string) :
  closed (newline_indent lvl ++ s) = true.
Proof. reflexivity. Qed.

(** *** Strings *)

Lemma scan_string_escape_char (c : ascii) (t : string) :
  scan_string (escape_char c ++ t) = consume c (scan_string t).
Proof.
  destruct c as [[] [] [] [] [] [] [] []]; reflexivity.
Qed.

Lemma scan_string_encoded (s rest : string) :
  scan_string (concat_map escape_char s ++ String dquote rest) = Some (s, rest).
Proof.
  induction s as [|c s IH]; simpl.
  - reflexivity.
  - rewrite append_assoc, scan_string_escape_char, IH. reflexivity.
Qed.

(** *** Integers *)

Lemma span_digits_uint (d : Decimal.uint) (rest : string) :
  closed rest = true ->
  span_digits (NilEmpty.string_of_uint d ++ rest) = (NilEmpty.string_of_uint d, rest).
Proof.
  intros Hc. induction d; simpl; try (rewrite IHd; reflexivity).
  destruct rest as [|c rest]; [reflexivity |]. simpl in *.
  apply orb_true_iff in Hc as [Hc | Hc]; apply Ascii.eqb_eq in Hc; subst; reflexivity.
Qed.

Lemma float_tail_closed (rest : string) : closed rest = true -> float_tail rest = false.
Proof.
  destruct rest as [|c rest]; [reflexivity |]. simpl.
  intros Hc. apply orb_true_iff in Hc as [Hc | Hc]; apply Ascii.eqb_eq in Hc; subst;
    destruct rest; reflexivity.
Qed.

(** The decimal digits of a number start with a zero only for zero. *)
Lemma to_uint_leading_zero (n : N) (d : Decimal.uint) :
  N.to_uint n = Decimal.D0 d -> n = 0%N /\ d = Decimal.Nil.
Proof.
  intros H.
  assert (Hn : Decimal.unorm (Decimal.D0 d) = Decimal.D0 d).
  { rewrite <- H, <- DecimalN.Unsigned.to_of, DecimalN.Unsigned.of_to. reflexivity. }
  rewrite DecimalFacts.unorm_D0 in Hn.
  unfold Decimal.unorm in Hn.
  destruct (Decimal.nzhead d) eqn:Hz; try discriminate.
  - injection Hn as <-. split; [| reflexivity].
    rewrite <- (DecimalN.Unsigned.of_to n), H. reflexivity.
  - exfalso. apply (DecimalFacts.nzhead_nonzero d d). now rewrite Hz, Hn.
Qed.

Lemma to_uint_nonnil (n : N) : N.to_uint n <> Decimal.Nil.
Proof.
  destruct n; simpl; [discriminate | apply DecimalPos.Unsigned.to_uint_nonnil].
Qed.

Lemma scan_natural_str_of_N (n : N) (rest : string) :
  closed rest = true ->
  scan_natural (str_of_N n ++ rest) = Some (n, rest) /\
  exists c r, str_of_N n = String c r /\ is_digit c = true.
Proof.
  intros Hc. unfold str_of_N.
  pose proof (to_uint_nonnil n) as Hnil.
  pose proof (to_uint_leading_zero n) as Hzero.
  pose proof (DecimalN.Unsigned.of_to n) as Hof.
  assert (Hval : N_of_digits (NilEmpty.string_of_uint (N.to_uint n)) = Some n).
  { unfold N_of_digits. now rewrite NilEmpty.usu, Hof. }
  pose proof (span_digits_uint (N.to_uint n) rest Hc) as Hspan.
  destruct (N.to_uint n) as [|d|d|d|d|d|d|d|d|d|d] eqn:Hu; try congruence.
  1: { destruct (Hzero d eq_refl) as [-> ->]. simpl. split; [reflexivity |].
       do 2 eexists; split; reflexivity. }
  all: split; [| do 2 eexists; split; reflexivity].
  all: unfold scan_natural; rewrite Hspan;
    cbn [NilEmpty.string_of_uint append] in Hval |- *;
    match goal with
    | |- context [Ascii.eqb ?a "0"] => change (Ascii.eqb a "0") with false
    end;
    cbv iota; now rewrite Hval.
Qed.

Lemma digit_facts (c : ascii) :
  is_digit c = true ->
  Ascii.eqb c "-" = false /\ opens (String c EmptyString) = true.
Proof.
  destruct c as [[] [] [] [] [] [] [] []]; intros H;
    try (cbv in H; discriminate H); split; reflexivity.
Qed.

Lemma scan_number_str_of_Z (z : Z) (rest : string) :
  closed rest = true ->
  scan_number (str_of_Z z ++ rest) = Some (JInt z, rest).
Proof.
  intros Hc. unfold str_of_Z. destruct (Z.ltb_spec z 0) as [Hneg | Hpos].
  - destruct (scan_natural_str_of_N (Z.abs_N z) rest Hc) as [Hs _].
    unfold scan_number. cbn [append]. change (Ascii.eqb "-" "-") with true. cbv iota.
    rewrite Hs, (float_tail_closed rest Hc). do 3 f_equal.
    rewrite N2Z.inj_abs_N. lia.
  - destruct (scan_natural_str_of_N (Z.to_N z) rest Hc) as [Hs (c & r & Hd & Hc')].
    unfold scan_number. rewrite Hd in *. cbn [append] in *.
    destruct (digit_facts c Hc') as [-> _].
    rewrite Hs, (float_tail_closed rest Hc). do 3 f_equal.
    now apply Z2N.id.
Qed.

Lemma parse_value_number (fuel : nat) (c : ascii) (r : string) :
  is_digit c || Ascii.eqb c "-" = true ->
  parse_value (S fuel) (String c r) = scan_number (String c r).
Proof.
  destruct c as [[] [] [] [] [] [] [] []]; intros H;
    try (cbv in H; discriminate H); reflexivity.
Qed.

Lemma str_of_Z_head (z : Z) :
  exists c r, str_of_Z z = String c r /\ is_digit c || Ascii.eqb c "-" = true.
Proof.
  unfold str_of_Z. destruct (z <? 0)%Z.
  - do 2 eexists. split; reflexivity.
  - destruct (scan_natural_str_of_N (Z.to_N z) EmptyString eq_refl)
      as [_ (c & r & Hd & Hc)].
    exists c, r. split; [exact Hd | now rewrite Hc].
Qed.

Lemma opens_app (a b : string) : opens a = true -> opens (a ++ b) = true.
Proof. destruct a; [discriminate | exact (fun H => H)]. Qed.

Lemma opens_number_head (c : ascii) (r : string) :
  is_digit c || Ascii.eqb c "-" = true -> opens (String c r) = true.
Proof.
  destruct c as [[] [] [] [] [] [] [] []]; intros H;
    try (cbv in H; discriminate H); reflexivity.
Qed.

Lemma opens_dumps (lvl : nat) (v : json) : opens (dumps_at lvl v) = true.
Proof.
  destruct v as [ | [] | n | s | [|x l] | [|kv d]]; try reflexivity.
  cbn [dumps_at]. destruct (str_of_Z_head n) as (c & r & -> & Hc).
  now apply opens_number_head.
Qed.

(** *** The decoder, one call at a time *)

Lemma parse_items_unfold (fuel : nat) (s : string) :
  parse_items (S fuel) s
  = match parse_value fuel s with
    | Some (v, r) =>
        match skip_ws r with
        | String q r1 =>
            if Ascii.eqb q "]" then Some ([v], r1)
            else if Ascii.eqb q "," then
              match parse_items fuel (skip_ws r1) with
              | Some (l, rest) => Some (v :: l, rest)
              | None => None
              end
            else None
        | EmptyString => None
        end
    | None => None
    end.
Proof. reflexivity. Qed.

Lemma parse_members_unfold (fuel : nat) (s : string) :
  parse_members (S fuel) s
  = match scan_string s with
    | Some (k, r) =>
        match skip_ws r with
        | String ":" r1 =>
            match parse_value fuel (skip_ws r1) with
            | Some (v, r2) =>
                match skip_ws r2 with
                | String q r3 =>
                    if Ascii.eqb q "}" then Some ([(k, v)], r3)
                    else if Ascii.eqb q "," then
                      match skip_ws r3 with
                      | String q' r4 =>
                          if Ascii.eqb q' dquote then
                            match parse_members fuel r4 with
                            | Some (l, rest) => Some ((k, v) :: l, rest)
                            | None => None
                            end
                          else None
                      | EmptyString => None
                      end
                    else None
                | EmptyString => None
                end
            | None => None
            end
        | _ => None
        end
    | None => None
    end.
Proof. reflexivity. Qed.

Lemma parse_value_array (fuel : nat) (r : string) :
  parse_value (S fuel) (String "[" r)
  = match skip_ws r with
    | String q r1 =>
        if Ascii.eqb q "]" then Some (JArr [], r1)
        else
          match parse_items fuel (String q r1) with
          | Some (l, rest) => Some (JArr l, rest)
          | None => None
          end
    | EmptyString => None
    end.
Proof. reflexivity. Qed.

Lemma parse_value_object (fuel : nat) (r : string) :
  parse_value (S fuel) (String "{" r)
  = match skip_ws r with
    | String q r1 =>
        if Ascii.eqb q "}" then Some (JObj [], r1)
        else if Ascii.eqb q dquote then
          match parse_members fuel r1 with
          | Some (pairs, rest) => Some (JObj (dict_of_pairs pairs), rest)
          | None => None
          end
        else None
    | EmptyString => None
    end.
Proof. reflexivity. Qed.

Lemma parse_value_string (fuel : nat) (r : string) :
  parse_value (S fuel) (String dquote r)
  = match scan_string r with
    | Some (t, rest) => Some (JStr t, rest)
    | None => None
    end.
Proof. reflexivity. Qed.

(** *** Dicts *)

Lemma dict_set_fresh (k : string) (v : json) (d : list (string * json)) :
  ~ In k (map fst d) -> dict_set k v d = (d ++ [(k, v)])%list.
Proof.
  induction d as [|[k' v'] d IH]; simpl; intros Hin; [reflexivity |].
  destruct (String.eqb_spec k' k) as [-> | _]; [tauto |].
  f_equal. apply IH. tauto.
Qed.

Lemma dict_of_pairs_acc (pairs acc : list (string * json)) :
  NoDup (map fst (acc ++ pairs)) ->
  fold_left (fun d kv => dict_set (fst kv) (snd kv) d) pairs acc = (acc ++ pairs)%list.
Proof.
  revert acc. induction pairs as [|[k v] pairs IH]; intros acc Hnd; simpl.
  - now rewrite List.app_nil_r.
  - rewrite dict_set_fresh.
    + rewrite IH; rewrite <- List.app_assoc; [reflexivity | exact Hnd].
    + rewrite map_app in Hnd. simpl in Hnd.
      apply NoDup_remove_2 in Hnd. intros Hin. apply Hnd.
      apply in_or_app. now left.
Qed.

Lemma dict_of_pairs_nodup (d : list (string * json)) :
  NoDup (map fst d) -> dict_of_pairs d = d.
Proof. intros H. unfold dict_of_pairs. now rewrite dict_of_pairs_acc. Qed.

(** *** What [dumps_at] writes for a non-empty list or dict *)

Lemma dumps_at_array (lvl : nat) (l : list json) (rest : string) :
  l <> [] ->
  dumps_at lvl (JArr l) ++ rest
  = String "["
      (newline_indent (S lvl)
         ++ (join ("," ++ newline_indent (S lvl)) (map (dumps_at (S lvl)) l)
               ++ (newline_indent lvl ++ String "]" rest))).
Proof.
  destruct l as [|x l]; [congruence |]. intros _.
  cbn [dumps_at]. cbn [append]. f_equal.
  now rewrite !append_assoc.
Qed.

Lemma dumps_at_object (lvl : nat) (d : list (string * json)) (rest : string) :
  d <> [] ->
  dumps_at lvl (JObj d) ++ rest
  = String "{"
      (newline_indent (S lvl)
         ++ (join ("," ++ newline_indent (S lvl)) (map (member_text (S lvl)) d)
               ++ (newline_indent lvl ++ String "}" rest))).
Proof.
  destruct d as [|kv d]; [congruence |]. intros _.
  cbn [dumps_at]. cbn [append]. f_equal.
  now rewrite !append_assoc.
Qed.

Lemma join_cons2 (sep x y : string) (l : list string) :
  join sep (x :: y :: l) = x ++ sep ++ join sep (y :: l).
Proof. reflexivity. Qed.

Lemma opens_join (sep a : string) (l : list string) :
  opens a = true -> opens (join sep (a :: l)) = true.
Proof.
  intros H. destruct l; [exact H |]. rewrite join_cons2. now apply opens_app.
Qed.

Lemma list_sum_cons (a : nat) (l : list nat) : list_sum (a :: l) = a + list_sum l.
Proof. reflexivity. Qed.

Lemma skip_ws_comma (s : string) : skip_ws (String "," s) = String "," s.
Proof. reflexivity. Qed.

Lemma opens_cases (s : string) :
  opens s = true ->
  exists q r, s = String q r /\ Ascii.eqb q "]" = false /\ json_ws q = false.
Proof.
  destruct s as [|q r]; [discriminate |]. simpl. intros H.
  apply andb_true_iff in H as [H1 H2].
  exists q, r. repeat split.
  - now destruct (Ascii.eqb q "]").
  - now destruct (json_ws q).
Qed.

Lemma parse_items_dumps (k j : nat) (rest : string) (l : list json) :
  Forall reads_back l -> l <> [] ->
  forall fuel,
    list_sum (map (fun x => S (weight x)) l) <= fuel ->
    parse_items fuel
      (join ("," ++ newline_indent k) (map (dumps_at k) l)
         ++ (newline_indent j ++ String "]" rest))
    = Some (l, rest).
Proof.
  induction l as [|x l IHl]; [congruence |].
  intros Hall _ fuel Hfuel. inversion Hall as [|? ? Hx Hl]; subst.
  rewrite map_cons, list_sum_cons in Hfuel.
  destruct fuel as [|fuel]; [lia |].
  rewrite parse_items_unfold.
  destruct l as [|y l].
  - cbn [map join String.concat].
    rewrite (Hx k _ fuel) by (try apply closed_newline_indent; lia).
    rewrite skip_ws_newline_indent. reflexivity.
  - cbn [map]. rewrite join_cons2, !append_assoc. cbn [append].
    rewrite (Hx k _ fuel) by (try reflexivity; lia).
    rewrite skip_ws_comma. cbv beta iota.
    change (Ascii.eqb "," "]") with false. change (Ascii.eqb "," ",") with true.
    cbv iota.
    rewrite skip_ws_newline_indent.
    rewrite skip_ws_opens by (apply opens_app, opens_join, opens_dumps).
    change (dumps_at k y :: map (dumps_at k) l) with (map (dumps_at k) (y :: l)).
    change (String "," (newline_indent k)) with ("," ++ newline_indent k).
    rewrite IHl; [reflexivity | exact Hl | discriminate | lia].
Qed.

Lemma member_text_shape (lvl : nat) (k : string) (x : json) (t : string) :
  member_text lvl (k, x) ++ t
  = String dquote
      (concat_map escape_char k
         ++ String dquote (String ":" (String " " (dumps_at lvl x ++ t)))).
Proof.
  unfold member_text, encode_str. cbn [fst snd append]. f_equal.
  rewrite !append_assoc. reflexivity.
Qed.

Lemma join_member_head (sep : string) (lvl : nat) (kv : string * json)
      (d : list (string * json)) (u : string) :
  exists t, join sep (map (member_text lvl) (kv :: d)) ++ u = String dquote t.
Proof.
  destruct kv as [k x]. destruct d as [|kv' d]; cbn [map].
  - cbn [join String.concat]. rewrite member_text_shape. eexists; reflexivity.
  - rewrite join_cons2, append_assoc, member_text_shape. eexists; reflexivity.
Qed.

Lemma skip_ws_newline_spaces (n : nat) (s : string) :
  skip_ws (String newline (spaces n ++ s)) = skip_ws s.
Proof. simpl. apply skip_ws_spaces. Qed.

Lemma skip_ws_colon (s : string) : skip_ws (String ":" s) = String ":" s.
Proof. reflexivity. Qed.

Lemma skip_ws_space (s : string) : skip_ws (String " " s) = skip_ws s.
Proof. reflexivity. Qed.

Lemma skip_ws_brace (s : string) : skip_ws (String "}" s) = String "}" s.
Proof. reflexivity. Qed.

Lemma skip_ws_bracket (s : string) : skip_ws (String "]" s) = String "]" s.
Proof. reflexivity. Qed.

Lemma skip_ws_dquote (s : string) : skip_ws (String dquote s) = String dquote s.
Proof. reflexivity. Qed.

Lemma comma_cons (a : string) : "," ++ a = String "," a.
Proof. reflexivity. Qed.

Lemma string_tail_inj (c : ascii) (a b : string) : String c a = String c b -> a = b.
Proof. now intros [= ->]. Qed.

Lemma parse_members_dumps (k j : nat) (rest : string) (d : list (string * json)) :
  Forall (fun kv => reads_back (snd kv)) d -> d <> [] ->
  forall fuel t,
    list_sum (map (fun kv => S (weight (snd kv))) d) <= fuel ->
    String dquote t
    = join ("," ++ newline_indent k) (map (member_text k) d)
        ++ (newline_indent j ++ String "}" rest) ->
    parse_members fuel t = Some (d, rest).
Proof.
  induction d as [|[key x] d IHd]; [congruence |].
  intros Hall _ fuel t Hfuel Ht. inversion Hall as [|? ? Hx Hd]; subst.
  cbn [snd] in Hx.
  rewrite map_cons, list_sum_cons in Hfuel. cbn [snd] in Hfuel.
  destruct fuel as [|fuel]; [lia |].
  rewrite parse_members_unfold.
  destruct d as [|kv' d].
  - cbn [map join String.concat] in Ht. rewrite member_text_shape in Ht.
    apply string_tail_inj in Ht. subst t.
    rewrite scan_string_encoded, skip_ws_colon. cbv beta iota.
    rewrite skip_ws_space.
    rewrite skip_ws_opens by (apply opens_app, opens_dumps).
    rewrite (Hx k _ fuel) by first [reflexivity | lia].
    rewrite ?skip_ws_newline_indent, ?skip_ws_newline_spaces, skip_ws_brace.
    reflexivity.
  - cbn [map] in Ht.
    rewrite join_cons2, !append_assoc, member_text_shape in Ht.
    rewrite (comma_cons (newline_indent k ++ _)) in Ht.
    apply string_tail_inj in Ht. subst t.
    rewrite scan_string_encoded, skip_ws_colon. cbv beta iota.
    rewrite skip_ws_space.
    rewrite skip_ws_opens by (apply opens_app, opens_dumps).
    rewrite (Hx k _ fuel) by (try reflexivity; lia).
    rewrite skip_ws_comma. cbv beta iota.
    change (Ascii.eqb "," "}") with false. change (Ascii.eqb "," ",") with true.
    cbv iota.
    rewrite ?skip_ws_newline_indent, ?skip_ws_newline_spaces.
    change (member_text k kv' :: map (member_text k) d)
      with (map (member_text k) (kv' :: d)).
    change (String "," (newline_indent k)) with ("," ++ newline_indent k).
    destruct (join_member_head ("," ++ newline_indent k) k kv' d
                (newline_indent j ++ String "}" rest)) as [t' Ht'].
    rewrite Ht', skip_ws_dquote. cbv beta iota.
    change (Ascii.eqb dquote dquote) with true. cbv iota.
    rewrite (IHd Hd ltac:(discriminate) fuel t'); [reflexivity | lia |].
    now rewrite Ht'.
Qed.

Lemma reads_back_all (v : json) : storable v -> reads_back v.
Proof.
  induction v as [ | b | n | s | l IHl | d IHd] using json_induction;
    intros Hs lvl rest fuel Hfuel Hc.
  - destruct fuel as [|fuel]; [simpl in Hfuel; lia |].
    cbn. now rewrite prefix_empty.
  - destruct fuel as [|fuel]; [simpl in Hfuel; lia |].
    destruct b; cbn; now rewrite prefix_empty.
  - destruct fuel as [|fuel]; [simpl in Hfuel; lia |].
    cbn [dumps_at]. destruct (str_of_Z_head n) as (c & r & Hz & Hd).
    pose proof (scan_number_str_of_Z n rest Hc) as Hn.
    rewrite Hz in *. cbn [append] in *.
    now rewrite parse_value_number.
  - destruct fuel as [|fuel]; [simpl in Hfuel; lia |].
    cbn [dumps_at]. unfold encode_str. cbn [append].
    rewrite parse_value_string, append_assoc. cbn [append].
    now rewrite scan_string_encoded.
  - inversion Hs as [| | | | ? Hall |]; subst.
    assert (Hrb : Forall reads_back l).
    { rewrite Forall_forall in *. auto. }
    cbn [weight] in Hfuel. destruct fuel as [|fuel]; [lia |].
    destruct l as [|x l].
    + reflexivity.
    + rewrite dumps_at_array by discriminate. rewrite parse_value_array.
      rewrite skip_ws_newline_indent.
      rewrite skip_ws_opens by (apply opens_app, opens_join, opens_dumps).
      pose proof (parse_items_dumps (S lvl) lvl rest (x :: l) Hrb
                    ltac:(discriminate) fuel ltac:(lia)) as Hitems.
      destruct (opens_cases _ (opens_app _ (newline_indent lvl ++ String "]" rest)
                                 (opens_join ("," ++ newline_indent (S lvl)) _
                                    (map (dumps_at (S lvl)) l)
                                    (opens_dumps (S lvl) x))))
        as (q & r1 & Hq & Hnb & _).
      change (dumps_at (S lvl) x :: map (dumps_at (S lvl)) l)
        with (map (dumps_at (S lvl)) (x :: l)) in Hq.
      rewrite Hq in *. rewrite Hnb, Hitems. reflexivity.
  - inversion Hs as [| | | | | ? Hnd Hall]; subst.
    assert (Hrb : Forall (fun kv => reads_back (snd kv)) d).
    { rewrite Forall_forall in *. auto. }
    cbn [weight] in Hfuel. destruct fuel as [|fuel]; [lia |].
    destruct d as [|kv d].
    + reflexivity.
    + rewrite dumps_at_object by discriminate. rewrite parse_value_object.
      rewrite skip_ws_newline_indent.
      destruct (join_member_head ("," ++ newline_indent (S lvl)) (S lvl) kv d
                  (newline_indent lvl ++ String "}" rest)) as [t Ht].
      rewrite Ht, skip_ws_dquote. cbv beta iota.
      change (Ascii.eqb dquote "}") with false.
      change (Ascii.eqb dquote dquote) with true. cbv iota.
      rewrite (parse_members_dumps (S lvl) lvl rest (kv :: d) Hrb
                 ltac:(discriminate) fuel t ltac:(lia) (eq_sym Ht)).
      now rewrite dict_of_pairs_nodup.
Qed.

(** *** Enough fuel *)

Lemma join_bound {A : Type} (w : A -> nat) (f : A -> string) (sep : string)
      (l : list A) :
  1 <= String.length sep ->
  Forall (fun x => w x <= 2 * String.length (f x)) l ->
  list_sum (map (fun x => S (w x)) l) <= 2 * String.length (join sep (map f l)) + 1.
Proof.
  intros Hsep. induction 1 as [|x l Hx Hl IH]; [simpl; lia |].
  rewrite map_cons, list_sum_cons. destruct l as [|y l].
  - simpl. lia.
  - cbn [map] in *. rewrite join_cons2, !length_append. lia.
Qed.

Lemma length_newline_indent (lvl : nat) : 1 <= String.length (newline_indent lvl).
Proof. simpl. lia. Qed.

Lemma weight_bound (v : json) :
  forall lvl, weight v <= 2 * String.length (dumps_at lvl v).
Proof.
  induction v as [ | b | n | s | l IHl | d IHd] using json_induction; intros lvl.
  - simpl. lia.
  - destruct b; simpl; lia.
  - cbn [weight dumps_at]. destruct (str_of_Z_head n) as (c & r & -> & _). simpl. lia.
  - simpl. lia.
  - destruct l as [|x l]; [simpl; lia |].
    rewrite <- (append_empty_r (dumps_at lvl (JArr (x :: l)))).
    rewrite dumps_at_array by discriminate.
    cbn [weight String.length]. rewrite !length_append.
    pose proof (join_bound weight (dumps_at (S lvl)) ("," ++ newline_indent (S lvl))
                  (x :: l) ltac:(simpl; lia)) as Hb.
    pose proof (length_newline_indent (S lvl)).
    assert (Hall : Forall (fun x => weight x <= 2 * String.length (dumps_at (S lvl) x))
                     (x :: l)).
    { rewrite Forall_forall in *. auto. }
    specialize (Hb Hall). lia.
  - destruct d as [|kv d]; [simpl; lia |].
    rewrite <- (append_empty_r (dumps_at lvl (JObj (kv :: d)))).
    rewrite dumps_at_object by discriminate.
    cbn [weight String.length]. rewrite !length_append.
    pose proof (join_bound (fun kv => weight (snd kv)) (member_text (S lvl))
                  ("," ++ newline_indent (S lvl))
                  (kv :: d) ltac:(simpl; lia)) as Hb.
    pose proof (length_newline_indent (S lvl)).
    assert (Hall : Forall (fun kv => weight (snd kv)
                                     <= 2 * String.length (member_text (S lvl) kv))
                     (kv :: d)).
    { rewrite Forall_forall in *. intros kv' Hin. specialize (IHd kv' Hin (S lvl)).
      unfold member_text. rewrite !length_append. lia. }
    specialize (Hb Hall). lia.
Qed.

(** [json.loads(json.dumps(v, indent=2))] is [v]. *)
Lemma json_round_trip (v : json) : storable v -> json_parse (json_dumps v) = Some v.
Proof.
  intros Hs. unfold json_parse, json_dumps.
  rewrite skip_ws_opens by apply opens_dumps.
  pose proof (reads_back_all v Hs 0 EmptyString
                (2 * String.length (dumps_at 0 v) + 2)) as Hr.
  rewrite append_empty_r in Hr. rewrite Hr; [reflexivity | | reflexivity].
  pose proof (weight_bound v 0). lia.
Qed.

Lemma storable_todo_sequence (records : list (string * string)) :
  storable (todo_sequence records).
Proof.
  unfold todo_sequence. constructor. apply Forall_forall. intros v Hin.
  apply in_map_iff in Hin as (r & <- & _). unfold todo_record.
  constructor.
  - simpl. repeat constructor; simpl; intuition discriminate.
  - repeat constructor.
Qed.

Lemma save_json_written (E : env) (path : string) (data : json) (w : world) :
  disk_write E path (json_dumps data) = Written ->
  save_json E path data w
  = (Ok tt,
     set_fs (fs_update path (Holds (json_dumps data)) (fs w))
       (set_trace (trace w ++ [WriteText path (json_dumps data)]) w)).
Proof.
  intros Hw. unfold save_json, write_text. run_m. now rewrite Hw.
Qed.

(** C4.  For every value [v] that JSON represents (in particular every todo
    sequence), if [save_json(path, v)] completes its write, a following
    [load_json(path, default)] returns [v] itself: the file reproduces the
    value in memory. *)
Theorem save_then_load_round_trip
        (E : env) (path : string) (v default : json) (w : world) :
  storable v ->
  disk_write E path (json_dumps v) = Written ->
  load_json path default (world_of (save_json E path v w))
  = (Ok v, world_of (save_json E path v w)).
Proof.
  intros Hs Hw. rewrite (save_json_written E path v w Hw). unfold world_of, snd.
  apply load_json_parsed with (text := json_dumps v).
  - simpl. unfold fs_update. now rewrite String.eqb_refl.
  - now apply json_round_trip.
Qed.

Lemma save_then_load_round_trip_witness :
  load_json "todo.json" (JArr [])
    (world_of (save_json calm "todo.json"
                 (todo_sequence [("Buy Milk", "2024-05-01T09:30:00");
                                 ("call mom", "2024-05-02T18:00:00")])
                 fresh_world))
  = (Ok (todo_sequence [("Buy Milk", "2024-05-01T09:30:00");
                        ("call mom", "2024-05-02T18:00:00")]),
     world_of (save_json calm "todo.json"
                 (todo_sequence [("Buy Milk", "2024-05-01T09:30:00");
                                 ("call mom", "2024-05-02T18:00:00")])
                 fresh_world)).
Proof.
  apply (save_then_load_round_trip calm "todo.json").
  - apply storable_todo_sequence.
  - reflexivity.
Defined.

(** * Further properties of the code *)

(** ** Traces *)

Lemma spoken_app (a b : list event) : spoken (a ++ b) = (spoken a ++ spoken b)%list.
Proof.
  induction a as [|[] a IH]; simpl; try exact IH; [reflexivity | now rewrite IH].
Qed.

Lemma written_app (a b : list event) : written (a ++ b) = (written a ++ written b)%list.
Proof.
  induction a as [|[] a IH]; simpl; try exact IH; [reflexivity | now rewrite IH].
Qed.

Lemma asked_app (a b : list event) : asked (a ++ b) = (asked a ++ asked b)%list.
Proof.
  induction a as [|[] a IH]; simpl; try exact IH; [reflexivity | now rewrite IH].
Qed.

Lemma looked_up_app (a b : list event) :
  looked_up (a ++ b) = (looked_up a ++ looked_up b)%list.
Proof.
  induction a as [|[] a IH]; simpl; try exact IH; [reflexivity | now rewrite IH].
Qed.

Lemma listens_app (a b : list event) : listens (a ++ b) = listens a + listens b.
Proof.
  induction a as [|[] a IH]; simpl; try exact IH; [reflexivity | now rewrite IH].
Qed.

Lemma transcript_app (a b : list event) :
  transcript (a ++ b) = (transcript a ++ transcript b)%list.
Proof. unfold transcript. now rewrite printed_app, filter_app. Qed.

(** No handler event is speech, listening or routing. *)
Lemma handler_events_quiet (added : list event) :
  forallb handler_event added = true ->
  spoken added = [] /\ routed added = [] /\ listens added = 0.
Proof.
  induction added as [|ev added IH]; simpl; [auto |].
  intros H. apply andb_true_iff in H as [Hev Hrest].
  destruct ev; simpl in *; try discriminate; auto.
Qed.

(** ** What a command handler leaves alone *)

Lemma footprint_ret {A : Type} (a : A) : handler_footprint (ret a).
Proof.
  intros w. repeat split. exists []. now rewrite List.app_nil_r.
Qed.

Ltac footprint_added :=
  eexists; split; [rewrite <- ?List.app_assoc; reflexivity | split; reflexivity].

Ltac footprint_nothing :=
  exists []; rewrite List.app_nil_r; repeat split.

Lemma footprint_open_website (E : env) (target : string) :
  handler_footprint (_open_website E target).
Proof.
  intros w. pose proof (open_website_spec E target w) as Hs. cbv zeta in Hs.
  rewrite Hs. unfold world_of. simpl. repeat split.
  footprint_added.
Qed.

Lemma footprint_add_todo (E : env) (item : string) :
  handler_footprint (_add_todo E item).
Proof.
  intros w. unfold _add_todo, todo_append, save_json, write_text, world_of.
  run_m. destruct (todo_list w); simpl;
    try (split; [reflexivity | split; [reflexivity | footprint_nothing]]).
  destruct (disk_write E _ _); simpl;
    (split; [reflexivity | split; [reflexivity | footprint_added]]).
Qed.

Lemma footprint_list_todo : handler_footprint _list_todo.
Proof.
  intros w. rewrite list_todo_spec. unfold world_of. simpl.
  split; [reflexivity | split; [reflexivity | footprint_nothing]].
Qed.

Lemma footprint_answer_with_ai (E : env) (prompt : string) :
  handler_footprint (_answer_with_ai E prompt).
Proof.
  intros w.
  unfold _answer_with_ai, chat_completion, wikipedia_summary, history_append, world_of.
  run_m.
  destruct (openai_module (conf w) && key_configured (conf w)); simpl.
  - destruct (chat E _); simpl.
    + split; [reflexivity | split; [reflexivity | footprint_added]].
    + destruct (wikipedia_module (conf w)); simpl;
        [destruct (wiki E prompt) |]; simpl;
          (split; [reflexivity | split; [reflexivity | footprint_added]]).
  - destruct (wikipedia_module (conf w)); simpl;
      [destruct (wiki E prompt) |]; simpl;
        (split; [reflexivity | split; [reflexivity |]]);
        first [footprint_added | footprint_nothing].
Qed.

Lemma footprint_handle_command (E : env) (text : string) :
  handler_footprint (handle_command E text).
Proof.
  unfold handle_command.
  destruct (str_in _ ["hi"; "hello"; "hey"]); [apply footprint_ret |].
  destruct (startswith _ "open "); [apply footprint_open_website |].
  destruct (startswith _ "add todo "); [apply footprint_add_todo |].
  destruct (str_in _ _); [apply footprint_list_todo |].
  apply footprint_answer_with_ai.
Qed.

Lemma handle_command_keeps (E : env) (text : string) (w : world) :
  let w' := world_of (handle_command E text w) in
  conf w' = conf w /\
  running w' = running w /\
  (exists added, trace w' = (trace w ++ added)%list) /\
  transcript (trace w') = transcript (trace w) /\
  spoken (trace w') = spoken (trace w) /\
  routed (trace w') = routed (trace w) /\
  listens (trace w') = listens (trace w).
Proof.
  cbv zeta.
  destruct (footprint_handle_command E text w) as (Hc & Hr & added & Ht & Hq & Htr).
  destruct (handler_events_quiet added Hq) as (Hs & Hro & Hl).
  rewrite Ht, transcript_app, spoken_app, routed_app, listens_app, Htr, Hs, Hro, Hl.
  rewrite !List.app_nil_r, Nat.add_0_r. repeat split; try assumption.
  now exists added.
Qed.

(** X1.  [handle_command] stays within its office: whatever the utterance
    and whatever the outside answers, it keeps the configuration and the
    [running] flag, only adds to the trace, and neither speaks, listens nor
    routes.  Speech, listening and the end of the loop belong to [run]. *)
Theorem handle_command_footprint (E : env) (text : string) (w : world) :
  let w' := world_of (handle_command E text w) in
  conf w' = conf w /\
  running w' = running w /\
  (exists added, trace w' = (trace w ++ added)%list) /\
  transcript (trace w') = transcript (trace w) /\
  spoken (trace w') = spoken (trace w) /\
  routed (trace w') = routed (trace w) /\
  listens (trace w') = listens (trace w).
Proof. exact (handle_command_keeps E text w). Qed.

(** ** The speaker *)

(** X2.  [Speaker.say] never raises.  It always prints the transcript line
    "Shree: <text>" first; it calls the engine exactly when the speaker is
    enabled; a failure of the engine is printed as "TTS error: <message>"
    and absorbed.  Nothing but the trace changes. *)
Theorem say_never_raises (E : env) (text : string) (wait : bool) (w : world) :
  let w' := world_of (say E text wait w) in
  value_of (say E text wait w) = Ok tt /\
  w' = set_trace (trace w') w /\
  printed (trace w')
  = (printed (trace w)
       ++ ("Shree: " ++ text)%string
       :: match (if tts_enabled (conf w) then engine E text else None) with
          | Some e => [("TTS error: " ++ exn_msg e)%string]
          | None => []
          end)%list /\
  spoken (trace w')
  = (spoken (trace w) ++ if tts_enabled (conf w) then [text] else [])%list.
Proof.
  cbv zeta. rewrite say_spec. unfold value_of, world_of, say_trace. simpl.
  rewrite printed_app, spoken_app. simpl.
  destruct (tts_enabled (conf w)); simpl; [destruct (engine E text) |]; simpl;
    repeat split.
Qed.

(** ** The main loop, for every script of the outside *)

Lemma main_loop_nil (w : world) :
  main_loop [] w = (Ok (if running w then Listening else Returned), w).
Proof.
  cbn. unfold bind, gets, ret. now destruct (running w).
Qed.

Lemma say_trace_spoken_disabled (c : config) (E : env) (text : string) (wait : bool) :
  tts_enabled c = false -> spoken (say_trace c E text wait) = [].
Proof. intros H. unfold say_trace. now rewrite H. Qed.

Lemma say_trace_routed (c : config) (E : env) (text : string) (wait : bool) :
  routed (say_trace c E text wait) = [].
Proof.
  unfold say_trace. simpl. destruct (tts_enabled c); [| reflexivity].
  destruct (engine E text); reflexivity.
Qed.

(** What one [listen] leaves: a longer trace without speech or routing, and
    nothing else changed. *)
Lemma listen_footprint (E : env) (w : world) :
  let w1 := world_of (listen E 6 10 w) in
  conf w1 = conf w /\ running w1 = running w /\
  todo_list w1 = todo_list w /\ chat_history w1 = chat_history w /\
  fs w1 = fs w /\
  exists added,
    trace w1 = (trace w ++ added)%list /\
    spoken added = [] /\ routed added = [] /\ transcript added = [] /\
    listens added = 1.
Proof.
  cbv zeta. rewrite listen_spec. unfold world_of.
  destruct (hear E); simpl; repeat split; eexists; repeat split.
Qed.

(** X3.  With the speaker disabled (no engine module, or its set-up failed)
    no run of the loop ever calls the speech engine, and the configuration
    is the same after the loop as before it. *)
Theorem disabled_speaker_never_speaks (script : list env) (w : world) :
  tts_enabled (conf w) = false ->
  conf (world_of (main_loop script w)) = conf w /\
  spoken (trace (world_of (main_loop script w))) = spoken (trace w).
Proof.
  revert w. induction script as [|E rest IH]; intros w Hoff.
  - rewrite main_loop_nil. auto.
  - rewrite main_loop_cons. destruct (running w); [| auto].
    destruct (listen_footprint E w) as (Hc1 & _ & _ & _ & _ & a1 & Ht1 & Hs1 & _).
    destruct (listen E 6 10 w) as [[[text|]|e] w1]; unfold world_of in *;
      cbn [fst snd] in *.
    + assert (Hoff1 : tts_enabled (conf w1) = false) by now rewrite Hc1.
      assert (Hsp1 : spoken (trace w1) = spoken (trace w)).
      { now rewrite Ht1, spoken_app, Hs1, List.app_nil_r. }
      destruct (String.eqb text EmptyString).
      { destruct (IH w1 Hoff1) as [-> ->]. auto. }
      destruct (str_in (strip (lower text)) EXIT_PHRASES).
      { simpl. rewrite spoken_app, say_trace_spoken_disabled by exact Hoff1.
        now rewrite List.app_nil_r. }
      pose proof (handle_command_keeps E text
                    (set_trace (trace w1 ++ [Route text]) w1)) as Hf.
      cbv zeta in Hf. unfold world_of in Hf.
      destruct (handle_command E text _) as [[response|e] w2]; cbn [fst snd] in *;
        destruct Hf as (Hc2 & _ & _ & _ & Hs2 & _); simpl in Hc2, Hs2.
      * assert (Hoff2 : tts_enabled (conf w2) = false) by now rewrite Hc2, Hc1.
        destruct (IH (set_trace (trace w2 ++ say_trace (conf w2) E response true) w2)
                     Hoff2) as [-> ->].
        simpl. rewrite spoken_app, say_trace_spoken_disabled by exact Hoff2.
        rewrite List.app_nil_r, Hs2, spoken_app. simpl.
        now rewrite List.app_nil_r, Hc2.
      * rewrite Hs2, spoken_app. simpl. now rewrite List.app_nil_r, Hc2.
    + assert (Hoff1 : tts_enabled (conf w1) = false) by now rewrite Hc1.
      destruct (IH w1 Hoff1) as [-> ->].
      now rewrite Ht1, spoken_app, Hs1, List.app_nil_r.
    + now rewrite Ht1, spoken_app, Hs1, List.app_nil_r.
Qed.

Lemma disabled_speaker_never_speaks_witness :
  conf (world_of (main_loop [hearing_of "hello"; hearing_of "stop"] fresh_world))
  = conf fresh_world /\
  spoken (trace (world_of (main_loop [hearing_of "hello"; hearing_of "stop"]
                             fresh_world)))
  = spoken (trace fresh_world).
Proof.
  apply (disabled_speaker_never_speaks [hearing_of "hello"; hearing_of "stop"]
           fresh_world).
  reflexivity.
Defined.

(** X4.  If a run of the loop ends without an exception, the router was
    handed exactly the non-empty utterances heard before the first exit
    phrase, each once and in the order heard; the exit phrase itself,
    silences and empty transcripts are never routed. *)
Theorem loop_routes_what_it_hears (script : list env) (w : world) (st : status) :
  running w = true ->
  value_of (main_loop script w) = Ok st ->
  routed (trace (world_of (main_loop script w)))
  = (routed (trace w) ++ utterances_to_route script)%list.
Proof.
  revert w. induction script as [|E rest IH]; intros w Hrun Hok.
  - rewrite main_loop_nil. simpl. now rewrite List.app_nil_r.
  - rewrite main_loop_cons in *. rewrite Hrun in *.
    destruct (listen_footprint E w) as (_ & Hr1 & _ & _ & _ & a1 & Ht1 & _ & Hro1 & _).
    rewrite listen_spec in *. unfold world_of, value_of in *. simpl utterances_to_route.
    destruct (hear E) as [text | | | e | e]; cbn [fst snd] in *.
    + unfold is_exit.
      assert (Hro : routed (trace w ++ [Listen 6 10; Print "(Listening...)";
                                        Print ("User: " ++ text)])
                    = routed (trace w)).
      { rewrite routed_app. simpl. now rewrite List.app_nil_r. }
      destruct (String.eqb text EmptyString).
      { rewrite IH; [cbn [trace set_trace]; now rewrite Hro | exact Hrun | exact Hok]. }
      destruct (str_in (strip (lower text)) EXIT_PHRASES).
      { cbn [fst snd trace set_trace set_running].
        rewrite routed_app, say_trace_routed, Hro. reflexivity. }
      match goal with
      | |- context [handle_command E text ?w0] =>
          pose proof (handle_command_keeps E text w0) as Hf;
          cbv zeta in Hf; unfold world_of in Hf;
          destruct (handle_command E text w0) as [[response|e] w2]
      end; cbn [fst snd] in *; [| discriminate].
      destruct Hf as (_ & Hr2 & _ & _ & _ & Hro2 & _). simpl in Hr2, Hro2.
      rewrite IH; [| simpl; rewrite Hr2; exact Hrun | exact Hok].
      cbn [trace set_trace].
      rewrite routed_app, say_trace_routed, List.app_nil_r, Hro2.
      rewrite !routed_app. simpl.
      now rewrite List.app_nil_r, <- List.app_assoc.
    + rewrite IH; [| exact Hrun | exact Hok].
      simpl. rewrite routed_app. simpl. now rewrite List.app_nil_r.
    + rewrite IH; [| exact Hrun | exact Hok].
      simpl. rewrite routed_app. simpl. now rewrite List.app_nil_r.
    + rewrite IH; [| exact Hrun | exact Hok].
      simpl. rewrite routed_app. simpl. now rewrite List.app_nil_r.
    + discriminate.
Qed.

Lemma loop_routes_what_it_hears_witness :
  routed (trace (world_of (main_loop
                             [hearing_of "hello"; calm; hearing_of "todos";
                              hearing_of "Quit"; hearing_of "hey"]
                             fresh_world)))
  = ["hello"; "todos"].
Proof.
  apply (loop_routes_what_it_hears
           [hearing_of "hello"; calm; hearing_of "todos"; hearing_of "Quit";
            hearing_of "hey"] fresh_world Returned);
    reflexivity.
Defined.

(** X5.  Cycles without usable input change nothing but the trace: after
    any number of silences, unintelligible sounds, failed recognition
    requests and empty transcripts the loop is still listening, has listened
    once per cycle, and has said nothing, routed nothing and left the todo
    list, the chat history and the disk as they were. *)
Theorem silent_cycles_keep_listening (script : list env) (w : world) :
  running w = true ->
  forallb silent script = true ->
  let w' := world_of (main_loop script w) in
  value_of (main_loop script w) = Ok Listening /\
  transcript (trace w') = transcript (trace w) /\
  spoken (trace w') = spoken (trace w) /\
  routed (trace w') = routed (trace w) /\
  listens (trace w') = listens (trace w) + List.length script /\
  todo_list w' = todo_list w /\ chat_history w' = chat_history w /\ fs w' = fs w.
Proof.
  cbv zeta. revert w. induction script as [|E rest IH]; intros w Hrun Hsil.
  - rewrite main_loop_nil, Hrun. unfold value_of, world_of. simpl.
    rewrite Nat.add_0_r. repeat split.
  - simpl in Hsil. apply andb_true_iff in Hsil as [HE Hrest].
    rewrite main_loop_cons, Hrun.
    destruct (listen_footprint E w)
      as (_ & Hr1 & Htd & Hch & Hfs & a1 & Ht1 & Hs1 & Hro1 & Htr1 & Hl1).
    assert (Hnext : exists heard w1,
               listen E 6 10 w = (Ok heard, w1) /\
               (heard = None \/ heard = Some EmptyString)).
    { rewrite listen_spec. unfold silent in HE.
      destruct (hear E) as [text | | | e | e]; try discriminate;
        try (do 2 eexists; split; [reflexivity | now left]).
      apply String.eqb_eq in HE. subst text.
      do 2 eexists; split; [reflexivity | now right]. }
    destruct Hnext as (heard & w1 & Hlisten & Hheard).
    rewrite Hlisten in *. unfold world_of in *. cbn [fst snd] in *.
    assert (Hgo : (match heard with
                   | Some text =>
                       if String.eqb text EmptyString then main_loop rest w1
                       else if str_in (strip (lower text)) EXIT_PHRASES then
                         (Ok Returned,
                          set_running false
                            (set_trace (trace w1 ++ say_trace (conf w1) E FAREWELL true)
                               w1))
                       else
                         match handle_command E text
                                 (set_trace (trace w1 ++ [Route text]) w1) with
                         | (Ok response, w2) =>
                             main_loop rest
                               (set_trace
                                  (trace w2 ++ say_trace (conf w2) E response true) w2)
                         | (Raise e, w2) => (Raise e, w2)
                         end
                   | None => main_loop rest w1
                   end) = main_loop rest w1).
    { destruct Hheard as [-> | ->]; reflexivity. }
    rewrite Hgo.
    destruct (IH w1 ltac:(now rewrite Hr1) Hrest)
      as (Hv & Htr & Hsp & Hro & Hli & Htd' & Hch' & Hfs').
    rewrite Hv, Htr, Hsp, Hro, Hli, Htd', Hch', Hfs'.
    rewrite Ht1, transcript_app, spoken_app, routed_app, listens_app.
    rewrite Htr1, Hs1, Hro1, Hl1, !List.app_nil_r. simpl.
    repeat split; try assumption. lia.
Qed.

Lemma silent_cycles_keep_listening_witness :
  value_of (main_loop [calm; hearing_of ""; calm] fresh_world) = Ok Listening /\
  transcript (trace (world_of (main_loop [calm; hearing_of ""; calm] fresh_world)))
  = transcript (trace fresh_world) /\
  spoken (trace (world_of (main_loop [calm; hearing_of ""; calm] fresh_world)))
  = spoken (trace fresh_world) /\
  routed (trace (world_of (main_loop [calm; hearing_of ""; calm] fresh_world)))
  = routed (trace fresh_world) /\
  listens (trace (world_of (main_loop [calm; hearing_of ""; calm] fresh_world)))
  = listens (trace fresh_world) + 3 /\
  todo_list (world_of (main_loop [calm; hearing_of ""; calm] fresh_world))
  = todo_list fresh_world /\
  chat_history (world_of (main_loop [calm; hearing_of ""; calm] fresh_world))
  = chat_history fresh_world /\
  fs (world_of (main_loop [calm; hearing_of ""; calm] fresh_world)) = fs fresh_world.
Proof.
  apply (silent_cycles_keep_listening [calm; hearing_of ""; calm] fresh_world);
    reflexivity.
Defined.

(** X6.  [run] catches nothing.  Let the loop have used up [pre] and be
    listening.  If the next [listen] raises, or the next utterance is a
    non-empty, non-exit one on which [handle_command] raises, the loop ends
    with that exception: [running] is still set, no reply and no farewell is
    said, and the rest of the script is never used. *)
Theorem loop_propagates_exceptions
        (pre rest : list env) (E : env) (w w1 : world) (e : exn) :
  main_loop pre w = (Ok Listening, w1) ->
  let heard := world_of (listen E 6 10 w1) in
  (hear E = ListenFailed e \/
   exists text,
     hear E = Heard text /\ text <> EmptyString /\ is_exit text = false /\
     value_of (handle_command E text (set_trace (trace heard ++ [Route text]) heard))
     = Raise e) ->
  let w2 := world_of (main_loop (pre ++ E :: rest) w) in
  value_of (main_loop (pre ++ E :: rest) w) = Raise e /\
  running w2 = true /\
  transcript (trace w2) = transcript (trace w1) /\
  spoken (trace w2) = spoken (trace w1).
Proof.
  intros Hpre heard Hcase. cbv zeta.
  destruct (main_loop_resume pre w w1 Hpre) as [Hrun Hmore].
  rewrite Hmore, main_loop_cons, Hrun.
  destruct (listen_footprint E w1)
    as (_ & Hr1 & _ & _ & _ & a1 & Ht1 & Hs1 & _ & Htr1 & _).
  fold heard in Hr1, Ht1.
  destruct Hcase as [Hfail | (text & Hheard & Hne & Hex & Hraise)].
  - subst heard. rewrite listen_spec, Hfail in *.
    unfold value_of, world_of in *. cbn [fst snd] in *.
    rewrite Ht1, transcript_app, spoken_app, Htr1, Hs1, !List.app_nil_r.
    repeat split. exact Hrun.
  - assert (Hl : listen E 6 10 w1 = (Ok (Some text), heard)).
    { subst heard. rewrite listen_spec, Hheard. reflexivity. }
    rewrite Hl. apply String.eqb_neq in Hne. rewrite Hne.
    unfold is_exit in Hex. rewrite Hex.
    pose proof (handle_command_keeps E text
                  (set_trace (trace heard ++ [Route text]) heard)) as Hf.
    cbv zeta in Hf. unfold value_of, world_of in *.
    destruct (handle_command E text _) as [[response|e'] w2]; cbn [fst snd] in *;
      [discriminate |].
    injection Hraise as ->.
    destruct Hf as (_ & Hr2 & _ & Htr2 & Hs2 & _ & _).
    cbn [running trace set_trace] in Hr2, Htr2, Hs2.
    rewrite Hr2, Htr2, Hs2, !transcript_app, !spoken_app, Ht1.
    rewrite transcript_app, spoken_app, Htr1, Hs1. simpl.
    rewrite !List.app_nil_r. repeat split. now rewrite Hr1.
Qed.

Lemma loop_propagates_exceptions_witness :
  value_of (main_loop ([hearing_of "hello"]
                         ++ Env (now_isoformat calm) (disk_write calm)
                              (fun _ => Raise browser_error) (chat calm) (wiki calm)
                              (engine calm) (Heard "open youtube")
                         :: [hearing_of "stop"]) fresh_world)
  = Raise browser_error /\
  running (world_of (main_loop ([hearing_of "hello"]
                         ++ Env (now_isoformat calm) (disk_write calm)
                              (fun _ => Raise browser_error) (chat calm) (wiki calm)
                              (engine calm) (Heard "open youtube")
                         :: [hearing_of "stop"]) fresh_world)) = true /\
  transcript (trace (world_of (main_loop ([hearing_of "hello"]
                         ++ Env (now_isoformat calm) (disk_write calm)
                              (fun _ => Raise browser_error) (chat calm) (wiki calm)
                              (engine calm) (Heard "open youtube")
                         :: [hearing_of "stop"]) fresh_world)))
  = ["Shree: Hello! How are you today?"] /\
  spoken (trace (world_of (main_loop ([hearing_of "hello"]
                         ++ Env (now_isoformat calm) (disk_write calm)
                              (fun _ => Raise browser_error) (chat calm) (wiki calm)
                              (engine calm) (Heard "open youtube")
                         :: [hearing_of "stop"]) fresh_world))) = [].
Proof.
  apply (loop_propagates_exceptions [hearing_of "hello"] [hearing_of "stop"]
           (Env (now_isoformat calm) (disk_write calm)
                (fun _ => Raise browser_error) (chat calm) (wiki calm)
                (engine calm) (Heard "open youtube"))
           fresh_world
           (world_of (main_loop [hearing_of "hello"] fresh_world))
           browser_error).
  - reflexivity.
  - right. exists "open youtube". repeat split. discriminate.
Defined.

(** ** Persistence: saving *)

(** X7.  [save_json] never raises and touches nothing in memory.  A write
    that succeeds leaves the file holding [json.dumps(data, indent=2)] and
    prints nothing; a write that fails leaves the path as the failure left
    it and prints exactly one line, "Error saving <path>: <message>". *)
Theorem save_json_absorbs_failure (E : env) (path : string) (data : json) (w : world) :
  let w' := world_of (save_json E path data w) in
  value_of (save_json E path data w) = Ok tt /\
  todo_list w' = todo_list w /\ chat_history w' = chat_history w /\
  running w' = running w /\ conf w' = conf w /\
  written (trace w') = (written (trace w) ++ [(path, json_dumps data)])%list /\
  match disk_write E path (json_dumps data) with
  | Written =>
      fs w' path = Holds (json_dumps data) /\
      printed (trace w') = printed (trace w)
  | WriteFailed e remains =>
      fs w' path = remains /\
      printed (trace w')
      = (printed (trace w) ++ [("Error saving " ++ path ++ ": " ++ exn_msg e)%string])%list
  end.
Proof.
  cbv zeta. unfold save_json, write_text, world_of, value_of. run_m.
  destruct (disk_write E path (json_dumps data)); simpl;
    rewrite ?written_app, ?printed_app; simpl;
    unfold fs_update; rewrite String.eqb_refl, ?List.app_nil_r;
    repeat split.
Qed.

(** X8.  A failed save is invisible to the user and to the program: when
    the write of "add todo" fails, [_add_todo] returns the same reply and
    leaves the same todo list in memory as when it succeeds, while the file
    does not hold the new list; only a printed diagnostic tells. *)
Theorem add_todo_failed_save_is_silent
        (E : env) (item : string) (w : world) (l : list json)
        (e : exn) (remains : file_state) :
  todo_list w = JArr l ->
  let todos := JArr (l ++ [todo_record item (now_isoformat E)]) in
  let path := TODO_FILE (conf w) in
  disk_write E path (json_dumps todos) = WriteFailed e remains ->
  let w' := world_of (_add_todo E item w) in
  value_of (_add_todo E item w) = Ok ("Added to your todo list: " ++ item) /\
  todo_list w' = todos /\
  fs w' path = remains /\
  printed (trace w')
  = (printed (trace w) ++ [("Error saving " ++ path ++ ": " ++ exn_msg e)%string])%list.
Proof.
  intros Hl todos path Hfail. cbv zeta.
  unfold _add_todo, todo_append, save_json, write_text, world_of, value_of.
  run_m. rewrite Hl. simpl. fold todos. fold path. rewrite Hfail. simpl.
  rewrite !printed_app. simpl. unfold fs_update. rewrite String.eqb_refl.
  rewrite List.app_nil_r. repeat split.
Qed.

Lemma add_todo_failed_save_is_silent_witness :
  value_of (_add_todo
              (Env (now_isoformat calm)
                   (fun _ _ => WriteFailed (Exn "OSError" "disk full") (Holds "[]"))
                   (browser calm) (chat calm) (wiki calm) (engine calm) (hear calm))
              "buy milk" fresh_world)
  = Ok "Added to your todo list: buy milk" /\
  todo_list (world_of (_add_todo
              (Env (now_isoformat calm)
                   (fun _ _ => WriteFailed (Exn "OSError" "disk full") (Holds "[]"))
                   (browser calm) (chat calm) (wiki calm) (engine calm) (hear calm))
              "buy milk" fresh_world))
  = JArr [todo_record "buy milk" (now_isoformat calm)] /\
  fs (world_of (_add_todo
              (Env (now_isoformat calm)
                   (fun _ _ => WriteFailed (Exn "OSError" "disk full") (Holds "[]"))
                   (browser calm) (chat calm) (wiki calm) (engine calm) (hear calm))
              "buy milk" fresh_world)) (TODO_FILE plain_config)
  = Holds "[]" /\
  printed (trace (world_of (_add_todo
              (Env (now_isoformat calm)
                   (fun _ _ => WriteFailed (Exn "OSError" "disk full") (Holds "[]"))
                   (browser calm) (chat calm) (wiki calm) (engine calm) (hear calm))
              "buy milk" fresh_world)))
  = ["Error saving /home/shree/.shree_voice/todo.json: disk full"].
Proof.
  apply (add_todo_failed_save_is_silent
           (Env (now_isoformat calm)
                (fun _ _ => WriteFailed (Exn "OSError" "disk full") (Holds "[]"))
                (browser calm) (chat calm) (wiki calm) (engine calm) (hear calm))
           "buy milk" fresh_world [] (Exn "OSError" "disk full") (Holds "[]"));
    reflexivity.
Defined.

Lemma import_module_spec (w : world) :
  import_module w
  = match load_json (TODO_FILE (conf w)) (JArr []) w with
    | (Ok v, w') => (Ok tt, set_todo_list v w')
    | (Raise e, w') => (Raise e, w')
    end.
Proof.
  unfold import_module, bind, gets, modify.
  destruct (load_json (TODO_FILE (conf w)) (JArr []) w) as [[v|e] w']; reflexivity.
Qed.

(** X9.  A todo file that holds valid JSON other than a list disables "add
    todo": the value is loaded as the todo list without complaint, and every
    later "add todo" utterance raises [AttributeError] before anything is
    stored, written or printed. *)
Theorem add_todo_needs_a_list
        (E : env) (text document : string) (v : json) (w : world) :
  fs w (TODO_FILE (conf w)) = Holds document ->
  json_parse document = Some v ->
  (forall l, v <> JArr l) ->
  startswith (strip (lower text)) "add todo " = true ->
  let w1 := world_of (import_module w) in
  value_of (import_module w) = Ok tt /\
  todo_list w1 = v /\
  handle_command E text w1 = (Raise AttributeError, w1).
Proof.
  intros Hf Hp Hv Hadd. cbv zeta.
  rewrite import_module_spec, (load_json_parsed _ (JArr []) w document v Hf Hp).
  unfold value_of, world_of. cbn [fst snd].
  split; [reflexivity | split; [reflexivity |]].
  rewrite (route_add_todo E text Hadd).
  apply add_todo_off_list. exact Hv.
Qed.

Lemma add_todo_needs_a_list_witness :
  value_of (import_module (world_with_file (Holds "{}"))) = Ok tt /\
  todo_list (world_of (import_module (world_with_file (Holds "{}")))) = JObj [] /\
  handle_command calm "add todo buy milk"
    (world_of (import_module (world_with_file (Holds "{}"))))
  = (Raise AttributeError, world_of (import_module (world_with_file (Holds "{}")))).
Proof.
  apply (add_todo_needs_a_list calm "add todo buy milk" "{}" (JObj [])
           (world_with_file (Holds "{}"))); try reflexivity.
  discriminate.
Defined.

(** ** Listing *)

Lemma subscript_item (v : json) :
  (exists x, subscript v "item" = Ok x) <-> has_item v.
Proof.
  unfold has_item, subscript. split.
  - intros [x H]. destruct v as [ | | | | |d]; try discriminate.
    destruct (dict_get "item" d) as [y|] eqn:Hd; [| discriminate].
    now exists d, y.
  - intros (d & x & -> & Hd). rewrite Hd. now exists x.
Qed.

Lemma todo_lines_ok (l : list json) :
  forall i lines, todo_lines (enumerate_from i l) = Ok lines -> Forall has_item l.
Proof.
  induction l as [|v l IH]; intros i lines H; [constructor |].
  simpl in H. destruct (subscript v "item") as [x|e] eqn:Hv; [| discriminate].
  destruct (todo_lines (enumerate_from (S i) l)) as [lines'|e] eqn:Hl; [| discriminate].
  constructor; [apply subscript_item; now exists x | exact (IH _ _ Hl)].
Qed.

Lemma todo_lines_first_bad (good : list json) (bad : json) (rest : list json)
      (e : exn) :
  Forall has_item good -> subscript bad "item" = Raise e ->
  forall i, todo_lines (enumerate_from i (good ++ bad :: rest)) = Raise e.
Proof.
  intros Hgood Hbad. induction Hgood as [|v good Hv _ IH]; intros i; simpl.
  - now rewrite Hbad.
  - apply subscript_item in Hv as [x ->]. now rewrite IH.
Qed.

(** X10.  [_list_todo] on a list replies exactly when every element is a
    record with the key ['item']; otherwise it raises the error of the first
    element without one ([KeyError] for a record lacking the key,
    [TypeError] for anything that is not a record), however many good
    elements come before or after it. *)
Theorem list_todo_replies_iff_items (l : list json) :
  ((exists reply, list_todo_text (JArr l) = Ok reply) <-> Forall has_item l) /\
  (forall good bad rest e,
      l = (good ++ bad :: rest)%list ->
      Forall has_item good -> subscript bad "item" = Raise e ->
      list_todo_text (JArr l) = Raise e).
Proof.
  split; [split |].
  - intros [reply H]. unfold list_todo_text in H.
    destruct l as [|v l]; [constructor |].
    change (truthy (JArr (v :: l))) with true in H. cbv beta iota in H. simpl negb in H.
    cbv iota in H. unfold py_iter in H.
    destruct (todo_lines (enumerate_from 0 (v :: l))) as [lines|e] eqn:Hl;
      [| discriminate].
    exact (todo_lines_ok _ _ _ Hl).
  - apply list_todo_text_total.
  - intros good bad rest e -> Hgood Hbad. unfold list_todo_text.
    assert (Ht : truthy (JArr (good ++ bad :: rest)) = true).
    { now destruct good. }
    rewrite Ht. simpl negb. cbv iota. unfold py_iter.
    now rewrite (todo_lines_first_bad good bad rest e Hgood Hbad).
Qed.

Lemma list_todo_replies_iff_items_witness :
  list_todo_text
    (JArr [todo_record "buy milk" "t1"; JObj [("task", JStr "call mom")];
           todo_record "water plants" "t3"])
  = Raise KeyError.
Proof.
  apply (proj2 (list_todo_replies_iff_items
                  [todo_record "buy milk" "t1"; JObj [("task", JStr "call mom")];
                   todo_record "water plants" "t3"])
               [todo_record "buy milk" "t1"] (JObj [("task", JStr "call mom")])
               [todo_record "water plants" "t3"] KeyError).
  - reflexivity.
  - repeat constructor. do 2 eexists. split; reflexivity.
  - reflexivity.
Defined.

(** ** Opening a site, continued *)





(** ** The knowledge fallback, continued *)

(** X12.  With the chat service configured and answering, [_answer_with_ai]
    sends the system prompt followed by the whole history and the new user
    turn, returns the answer trimmed, and leaves the history longer by
    exactly two turns: the prompt and the trimmed answer.  The knowledge
    base is not consulted. *)
Theorem chat_answer_extends_history
        (E : env) (prompt content : string) (w : world) :
  openai_module (conf w) = true -> key_configured (conf w) = true ->
  chat E (SYSTEM_PROMPT :: chat_history w ++ [Turn User prompt]) = Ok content ->
  let w' := world_of (_answer_with_ai E prompt w) in
  value_of (_answer_with_ai E prompt w) = Ok (strip content) /\
  chat_history w'
  = (chat_history w ++ [Turn User prompt; Turn Assistant (strip content)])%list /\
  asked (trace w')
  = (asked (trace w) ++ [SYSTEM_PROMPT :: chat_history w ++ [Turn User prompt]])%list /\
  looked_up (trace w') = looked_up (trace w) /\
  printed (trace w') = printed (trace w).
Proof.
  intros Hm Hk Hc. cbv zeta.
  unfold _answer_with_ai, chat_completion, wikipedia_summary, history_append,
    world_of, value_of.
  run_m. rewrite Hm, Hk. simpl. rewrite Hc. simpl.
  rewrite asked_app, looked_up_app, printed_app, <- List.app_assoc. simpl.
  rewrite !List.app_nil_r. repeat split.
Qed.

Lemma chat_answer_extends_history_witness :
  value_of (_answer_with_ai calm "who are you" chatty_world) = Ok "Hello there." /\
  chat_history (world_of (_answer_with_ai calm "who are you" chatty_world))
  = [Turn User "who are you"; Turn Assistant "Hello there."] /\
  asked (trace (world_of (_answer_with_ai calm "who are you" chatty_world)))
  = [[SYSTEM_PROMPT; Turn User "who are you"]] /\
  looked_up (trace (world_of (_answer_with_ai calm "who are you" chatty_world))) = [] /\
  printed (trace (world_of (_answer_with_ai calm "who are you" chatty_world))) = [].
Proof.
  apply (chat_answer_extends_history calm "who are you" "Hello there." chatty_world);
    reflexivity.
Defined.

(** X13.  When the chat request fails, the failure is printed as "OpenAI
    error: <message>" and the reply is the knowledge lookup's; the user turn
    appended before the request stays in the history, unanswered, so the
    next request will carry it. *)
Theorem chat_failure_keeps_user_turn
        (E : env) (prompt : string) (w : world) (e : exn) :
  openai_module (conf w) = true -> key_configured (conf w) = true ->
  chat E (SYSTEM_PROMPT :: chat_history w ++ [Turn User prompt]) = Raise e ->
  let w' := world_of (_answer_with_ai E prompt w) in
  value_of (_answer_with_ai E prompt w) = Ok (knowledge_reply (conf w) E prompt) /\
  chat_history w' = (chat_history w ++ [Turn User prompt])%list /\
  printed (trace w')
  = (printed (trace w) ++ [("OpenAI error: " ++ exn_msg e)%string])%list /\
  looked_up (trace w')
  = (looked_up (trace w) ++ if wikipedia_module (conf w) then [prompt] else [])%list.
Proof.
  intros Hm Hk Hc. cbv zeta.
  unfold _answer_with_ai, chat_completion, wikipedia_summary, history_append,
    world_of, value_of, knowledge_reply.
  run_m. rewrite Hm, Hk. simpl. rewrite Hc. simpl.
  destruct (wikipedia_module (conf w)); simpl;
    [destruct (wiki E prompt) |]; simpl;
      rewrite ?looked_up_app, ?printed_app; simpl;
      rewrite ?looked_up_app, ?printed_app; simpl;
      rewrite ?List.app_nil_r; repeat split.
Qed.

Lemma chat_failure_keeps_user_turn_witness :
  value_of (_answer_with_ai
              (Env (now_isoformat calm) (disk_write calm) (browser calm)
                   (fun _ => Raise (Exn "RateLimitError" "quota exceeded"))
                   (wiki calm) (engine calm) (hear calm))
              "who are you" chatty_world)
  = Ok "A summary." /\
  chat_history (world_of (_answer_with_ai
              (Env (now_isoformat calm) (disk_write calm) (browser calm)
                   (fun _ => Raise (Exn "RateLimitError" "quota exceeded"))
                   (wiki calm) (engine calm) (hear calm))
              "who are you" chatty_world))
  = [Turn User "who are you"] /\
  printed (trace (world_of (_answer_with_ai
              (Env (now_isoformat calm) (disk_write calm) (browser calm)
                   (fun _ => Raise (Exn "RateLimitError" "quota exceeded"))
                   (wiki calm) (engine calm) (hear calm))
              "who are you" chatty_world)))
  = ["OpenAI error: quota exceeded"] /\
  looked_up (trace (world_of (_answer_with_ai
              (Env (now_isoformat calm) (disk_write calm) (browser calm)
                   (fun _ => Raise (Exn "RateLimitError" "quota exceeded"))
                   (wiki calm) (engine calm) (hear calm))
              "who are you" chatty_world)))
  = ["who are you"].
Proof.
  apply (chat_failure_keeps_user_turn
           (Env (now_isoformat calm) (disk_write calm) (browser calm)
                (fun _ => Raise (Exn "RateLimitError" "quota exceeded"))
                (wiki calm) (engine calm) (hear calm))
           "who are you" chatty_world (Exn "RateLimitError" "quota exceeded"));
    reflexivity.
Defined.

(** X14.  Without the chat module, without the credential, or with an empty
    credential, no chat request is ever made: the reply is the knowledge
    lookup's, and the history and the printed output stay as they were. *)
Theorem no_credential_no_chat (E : env) (prompt : string) (w : world) :
  openai_module (conf w) = false \/
  openai_key (conf w) = None \/
  openai_key (conf w) = Some EmptyString ->
  let w' := world_of (_answer_with_ai E prompt w) in
  value_of (_answer_with_ai E prompt w) = Ok (knowledge_reply (conf w) E prompt) /\
  chat_history w' = chat_history w /\
  asked (trace w') = asked (trace w) /\
  printed (trace w') = printed (trace w).
Proof.
  intros Hoff. cbv zeta.
  assert (Hcond : openai_module (conf w) && key_configured (conf w) = false).
  { unfold key_configured.
    destruct Hoff as [-> | [-> | ->]]; [reflexivity | | ]; apply andb_false_r. }
  unfold _answer_with_ai, chat_completion, wikipedia_summary, history_append,
    world_of, value_of, knowledge_reply.
  run_m. rewrite Hcond. simpl.
  destruct (wikipedia_module (conf w)); simpl;
    [destruct (wiki E prompt) |]; simpl;
      rewrite ?asked_app, ?printed_app; simpl;
      rewrite ?List.app_nil_r; repeat split.
Qed.

Lemma no_credential_no_chat_witness :
  value_of (_answer_with_ai calm "who are you"
              (set_conf (Config false true true (Some EmptyString) true "todo.json")
                 fresh_world))
  = Ok "A summary." /\
  chat_history (world_of (_answer_with_ai calm "who are you"
              (set_conf (Config false true true (Some EmptyString) true "todo.json")
                 fresh_world))) = [] /\
  asked (trace (world_of (_answer_with_ai calm "who are you"
              (set_conf (Config false true true (Some EmptyString) true "todo.json")
                 fresh_world)))) = [] /\
  printed (trace (world_of (_answer_with_ai calm "who are you"
              (set_conf (Config false true true (Some EmptyString) true "todo.json")
                 fresh_world)))) = [].
Proof.
  apply (no_credential_no_chat calm "who are you"
           (set_conf (Config false true true (Some EmptyString) true "todo.json")
              fresh_world)).
  right; right. reflexivity.
Defined.


(** ** From one run to the next *)

Lemma storable_todo_record (item added_at : string) :
  storable (todo_record item added_at).
Proof.
  unfold todo_record. constructor.
  - simpl. repeat constructor; simpl; intuition discriminate.
  - repeat constructor.
Qed.

(** X16.  What "add todo" stores survives a restart: after an "add todo"
    whose write succeeds, importing the module again loads from the file
    exactly the todo list that was in memory, the new record last. *)
Theorem add_todo_survives_restart
        (E : env) (item : string) (w : world) (l : list json) :
  todo_list w = JArr l ->
  Forall storable l ->
  disk_write E (TODO_FILE (conf w))
    (json_dumps (JArr (l ++ [todo_record item (now_isoformat E)]))) = Written ->
  let w1 := world_of (_add_todo E item w) in
  value_of (import_module w1) = Ok tt /\
  todo_list (world_of (import_module w1)) = todo_list w1 /\
  todo_list w1 = JArr (l ++ [todo_record item (now_isoformat E)]).
Proof.
  intros Hl Hst Hw. cbv zeta.
  destruct (add_todo_spec E item w l Hl) as (_ & Htodo & Hdisk).
  destruct (Hdisk Hw) as [_ Hfs].
  destruct (footprint_add_todo E item w) as (Hconf & _).
  assert (Hrt : json_parse (json_dumps (JArr (l ++ [todo_record item (now_isoformat E)])))
                = Some (JArr (l ++ [todo_record item (now_isoformat E)]))).
  { apply json_round_trip. constructor. apply Forall_app. split; [exact Hst |].
    constructor; [apply storable_todo_record | constructor]. }
  rewrite import_module_spec, Hconf.
  rewrite (load_json_parsed _ (JArr []) _ _ _ Hfs Hrt).
  unfold value_of, world_of in *. cbn [fst snd todo_list set_todo_list].
  repeat split; congruence.
Qed.

Lemma add_todo_survives_restart_witness :
  value_of (import_module (world_of (_add_todo calm "call mom" fresh_world))) = Ok tt /\
  todo_list (world_of (import_module (world_of (_add_todo calm "call mom" fresh_world))))
  = todo_list (world_of (_add_todo calm "call mom" fresh_world)) /\
  todo_list (world_of (_add_todo calm "call mom" fresh_world))
  = JArr ([] ++ [todo_record "call mom" (now_isoformat calm)]).
Proof.
  apply (add_todo_survives_restart calm "call mom" fresh_world []).
  - reflexivity.
  - constructor.
  - reflexivity.
Defined.




(** ** Construction and entry point *)

Lemma ShreeVoice_init_spec (P : platform) (w : world) :
  ShreeVoice_init P w
  = (Ok tt,
     World (Config (Speaker_init P)
                   (match Listener_init P with Ok _ => true | Raise _ => false end)
                   (openai_module (conf w)) (OPENAI_API_KEY P)
                   (wikipedia_module (conf w)) (TODO_FILE (conf w)))
           (fs w) (todo_list w) [] true
           (trace w
              ++ match Listener_init P with
                 | Ok _ => []
                 | Raise e => [Print ("Listener unavailable: " ++ exn_msg e)]
                 end)).
Proof.
  unfold ShreeVoice_init. run_m.
  destruct (Listener_init P) as [[]|e]; simpl; unfold set_chat_history, set_running,
    set_conf, set_trace; simpl; rewrite ?List.app_nil_r; destruct w; reflexivity.
Qed.

(** X18.  Building the assistant never raises, whatever is missing on the
    machine.  The speaker is enabled exactly when the engine module is
    present and its set-up succeeded; a listener exists exactly when the
    recognition module is present and its set-up succeeded, and otherwise
    one line "Listener unavailable: <message>" is printed.  The assistant
    starts running, with an empty chat history and the credential of the
    environment; the todo list and the disk are untouched. *)
Theorem construction_never_raises (P : platform) (w : world) :
  let w' := world_of (ShreeVoice_init P w) in
  value_of (ShreeVoice_init P w) = Ok tt /\
  running w' = true /\ chat_history w' = [] /\
  tts_enabled (conf w')
  = pyttsx3_module P && match pyttsx3_init P with None => true | Some _ => false end /\
  has_listener (conf w')
  = sr_module P && match sr_setup P with None => true | Some _ => false end /\
  openai_key (conf w') = OPENAI_API_KEY P /\
  todo_list w' = todo_list w /\ fs w' = fs w /\
  printed (trace w')
  = (printed (trace w)
       ++ if has_listener (conf w') then []
          else [("Listener unavailable: "
                   ++ exn_msg (if sr_module P
                               then match sr_setup P with
                                    | Some e => e
                                    | None => SR_MISSING
                                    end
                               else SR_MISSING))%string])%list.
Proof.
  cbv zeta. rewrite ShreeVoice_init_spec. unfold value_of, world_of.
  cbn [fst snd running chat_history conf tts_enabled has_listener openai_key
       todo_list fs trace].
  rewrite printed_app. unfold Speaker_init, Listener_init.
  destruct (pyttsx3_module P), (pyttsx3_init P), (sr_module P), (sr_setup P);
    simpl; rewrite ?List.app_nil_r; repeat split.
Qed.




(** ** The router's patterns *)

(** X20.  No utterance matches two of the router's four command patterns:
    a greeting, the prefix "open ", the prefix "add todo " and a listing
    phrase exclude one another, so the order in which [handle_command]
    tries them decides nothing. *)
Theorem command_patterns_exclusive (text : string) :
  let u := strip (lower text) in
  let greeting := str_in u ["hi"; "hello"; "hey"] in
  let opening := startswith u "open " in
  let adding := startswith u "add todo " in
  let listing := str_in u ["list todo"; "show todo"; "todos"] in
  (greeting = true -> opening = false /\ adding = false /\ listing = false) /\
  (opening = true -> adding = false /\ listing = false) /\
  (adding = true -> listing = false).
Proof.
  cbv zeta. split; [| split].
  - intros H. apply str_in_cases in H.
    destruct H as [<- | [<- | [<- | []]]]; repeat split.
  - intros H. rewrite (startswith_split _ _ H). repeat split.
  - intros H. rewrite (startswith_split _ _ H). reflexivity.
Qed.

Lemma command_patterns_exclusive_witness :
  startswith (strip (lower " Open YouTube ")) "add todo " = false /\
  str_in (strip (lower " Open YouTube ")) ["list todo"; "show todo"; "todos"] = false.
Proof.
  apply (proj1 (proj2 (command_patterns_exclusive " Open YouTube "))).
  reflexivity.
Defined.
